(** * Ring-down analysis pipeline (RD2 .. RD7): shallow embedding

    The Python sources compute on IEEE doubles (Python [float] and numpy
    [float64]).  The embedding keeps the control flow, the indexing and the
    special values of that arithmetic:

    - a finite number is a rational ([Q]); [np.pi] is the rational value of
      the double nearest to pi;
    - the special values NaN and the two infinities are kept, with the IEEE
      rules for comparisons and arithmetic on them ([pyfloat]); there is a
      single zero (no signed zeros);
    - the scalar arithmetic of RD7, the driver's [Q_final] and the quotient
      [fs / f0] of RD3 and RD4 round every operation to binary64, to nearest
      with ties to even, with gradual underflow and overflow to infinity
      ([b64], [d_mul], [d_div], [d_sub]); their decimal literals are the
      doubles Python reads;
    - the array arithmetic of RD2, RD3, RD4 and RD5 (means, sums, the
      convolution, the interpolation of crossings) is exact: rounding is
      idealised there, and decimal literals such as [1e-12] or [0.05] denote
      the decimal rational they spell.

    Printed warnings are returned as a list next to the result; plots and the
    informational prints (formatted numbers) are left out. *)

From Stdlib Require Import ZArith QArith Qabs Qround Qminmax Qpower List Bool String Lia Lqa.
From Stdlib Require Import Sorted Permutation Ascii.
Import ListNotations.

Open Scope Q_scope.

(* ================================================================== *)
(** ** Python values and exceptions *)

Inductive exn : Type :=
| IndexError
| ZeroDivisionError
| ValueError
| TypeError
| OverflowError
| LinAlgError.

Inductive result (A : Type) : Type :=
| Ok (a : A)
| Raise (e : exn).

Arguments Ok {A} a.
Arguments Raise {A} e.

(** A double: a finite value, the infinities, or NaN. *)
Inductive pyfloat : Type :=
| Fin (q : Q)
| PInf
| NInf
| NaN.

Definition is_nan (x : pyfloat) : bool :=
  match x with NaN => true | _ => false end.

Definition is_finite (x : pyfloat) : bool :=
  match x with Fin _ => true | _ => false end.

(** Equality of doubles as values (finite values compared as rationals).
    This is the meta-level equality of the model, not Python's [==]. *)
Definition fl_same (x y : pyfloat) : Prop :=
  match x, y with
  | Fin a, Fin b => a == b
  | PInf, PInf => True
  | NInf, NInf => True
  | NaN, NaN => True
  | _, _ => False
  end.

Definition Qltb (a b : Q) : bool := negb (Qle_bool b a).

Definition Qsign (a : Q) : Z := Z.sgn (Qnum a).

(** [x <= y], [x < y], [x > y], [x != y] on doubles: every comparison
    with NaN is false except [!=]. *)
Definition fl_leb (x y : pyfloat) : bool :=
  match x, y with
  | NaN, _ | _, NaN => false
  | NInf, _ => true
  | _, PInf => true
  | Fin a, Fin b => Qle_bool a b
  | _, _ => false
  end.

Definition fl_ltb (x y : pyfloat) : bool :=
  match x, y with
  | NaN, _ | _, NaN => false
  | PInf, _ => false
  | _, NInf => false
  | Fin a, Fin b => Qltb a b
  | _, _ => true
  end.

Definition fl_gtb (x y : pyfloat) : bool := fl_ltb y x.

Definition fl_neb (x y : pyfloat) : bool :=
  match x, y with
  | NaN, _ | _, NaN => true
  | Fin a, Fin b => negb (Qeq_bool a b)
  | PInf, PInf => false
  | NInf, NInf => false
  | _, _ => true
  end.

Definition fl_neg (x : pyfloat) : pyfloat :=
  match x with
  | Fin a => Fin (- a)
  | PInf => NInf
  | NInf => PInf
  | NaN => NaN
  end.

Definition fl_abs (x : pyfloat) : pyfloat :=
  match x with
  | Fin a => Fin (Qabs a)
  | PInf | NInf => PInf
  | NaN => NaN
  end.

Definition fl_add (x y : pyfloat) : pyfloat :=
  match x, y with
  | NaN, _ | _, NaN => NaN
  | Fin a, Fin b => Fin (a + b)
  | PInf, NInf | NInf, PInf => NaN
  | PInf, _ | _, PInf => PInf
  | NInf, _ | _, NInf => NInf
  end.

Definition fl_sub (x y : pyfloat) : pyfloat := fl_add x (fl_neg y).

(** Infinity of the sign [s] (NaN for [s = 0]). *)
Definition inf_of_sign (s : Z) : pyfloat :=
  match s with
  | Zpos _ => PInf
  | Zneg _ => NInf
  | Z0 => NaN
  end.

Definition fl_sign (x : pyfloat) : Z :=
  match x with
  | Fin a => Qsign a
  | PInf => 1%Z
  | NInf => (-1)%Z
  | NaN => 0%Z
  end.

Definition fl_mul (x y : pyfloat) : pyfloat :=
  match x, y with
  | NaN, _ | _, NaN => NaN
  | Fin a, Fin b => Fin (a * b)
  | _, _ => inf_of_sign (fl_sign x * fl_sign y)
  end.

(** numpy scalar division: dividing by zero gives an infinity (or NaN for
    0/0) with a RuntimeWarning, never an exception. *)
Definition fl_div (x y : pyfloat) : pyfloat :=
  match x, y with
  | NaN, _ | _, NaN => NaN
  | Fin a, Fin b =>
      if Qeq_bool b 0 then inf_of_sign (Qsign a) else Fin (a / b)
  | Fin _, _ => Fin 0
  | _, Fin b => if Qeq_bool b 0 then x else inf_of_sign (fl_sign x * Qsign b)
  | _, _ => NaN
  end.

(** Python's builtin [max(a, b)]: keeps [a] unless [b > a]. *)
Definition py_max (a b : pyfloat) : pyfloat :=
  if fl_gtb b a then b else a.

(** [np.pi]: the double 0x1.921fb54442d18p+1. *)
Definition np_pi : Q := 884279719003555 # 281474976710656.

(* ================================================================== *)
(** ** Rounding to binary64 *)

Definition pow2 (e : Z) : Q := 2 ^ e.

(** [floor (log2 q)] for a positive [q]. *)
Definition ilog2 (q : Q) : Z :=
  let e0 := (Z.log2 (Qnum q) - Z.log2 (Zpos (Qden q)))%Z in
  if Qle_bool (pow2 e0) q then e0 else (e0 - 1)%Z.

(** The integer nearest to [q], the even one of two equally near. *)
Definition round_half_even (q : Q) : Z :=
  let f := Qfloor q in
  let r := q - inject_Z f in
  if Qltb r (1 # 2) then f
  else if Qltb (1 # 2) r then (f + 1)%Z
  else if Z.even f then f else (f + 1)%Z.

(** The double nearest to a positive rational: 53 significant bits, the
    spacing of the subnormal numbers ([2^-1074]) below [2^-1022], and
    infinity when the rounded value reaches [2^1024]. *)
Definition b64_pos (a : Q) : pyfloat :=
  let e := Z.max (ilog2 a) (-1022) in
  let ulp := pow2 (e - 52) in
  let r := inject_Z (round_half_even (a / ulp)) * ulp in
  if Qle_bool (pow2 1024) r then PInf else Fin (Qred r).

Definition b64 (q : Q) : pyfloat :=
  if Qeq_bool q 0 then Fin 0
  else if Qltb q 0 then fl_neg (b64_pos (- q)) else b64_pos q.

(** An operation on doubles is the exact operation followed by rounding. *)
Definition d_round (x : pyfloat) : pyfloat :=
  match x with
  | Fin q => b64 q
  | _ => x
  end.

Definition d_mul (x y : pyfloat) : pyfloat := d_round (fl_mul x y).
Definition d_div (x y : pyfloat) : pyfloat := d_round (fl_div x y).
Definition d_sub (x y : pyfloat) : pyfloat := d_round (fl_sub x y).

(** The unit roundoff [2^-53]. *)
Definition eps64 : Q := 1 # 9007199254740992.

(** The doubles that Python reads for [0.1] and [0.3]. *)
Definition lit_0_1 : Q := 3602879701896397 # 36028797018963968.
Definition lit_0_3 : Q := 5404319552844595 # 18014398509481984.

(* ================================================================== *)
(** ** RD7: damping factor and linewidths (R7_Damping_Linewidth.py) *)

Module RD7.

Open Scope string_scope.

(** The dictionary returned by [rd7_damping_linewidth]. *)
Record metrics : Type := mkMetrics {
  alpha : pyfloat;
  df_tau : pyfloat;
  df_Q : pyfloat;
  warn : list string;
  fix_ : list string
}.

Definition w_tau := "tau_s is non-positive; cannot compute damping or linewidth.".
Definition f_tau := "Check RD4 exponential fit; envelope may be corrupted.".
Definition w_f0 := "f0_hz is invalid; cannot compute linewidth.".
Definition f_f0 := "Check zero-crossings in RD5; signal may be too noisy.".
Definition w_Q := "Q is invalid; cannot compute Q-based linewidth.".
Definition f_Q := "Check RD4 and RD5, or inspect the RD2 and RD3 plots.".

Definition w_small := "df_tau extremely small (<0.1 Hz).".
Definition f_small := "Decay too slow or envelope oversmoothed; check RD3 window.".
Definition w_large := "df_tau very large (>100 kHz).".
Definition f_large := "Decay too fast; signal too short or noisy. Check RD1 slicing.".
Definition w_mismatch := "Δfτ and ΔfQ mismatch >30%.".
Definition f_mismatch := "Check Q calculation in RD4 and f0 from RD5 for consistency.".

(** The record returned by each of the three validation branches. *)
Definition sentinel (w f : string) : metrics :=
  mkMetrics NaN NaN NaN [w] [f].

(** [v is None or v <= 0] *)
Definition non_positive (v : option pyfloat) : bool :=
  match v with
  | None => true
  | Some x => fl_leb x (Fin 0)
  end.

Definition get (v : option pyfloat) : pyfloat :=
  match v with Some x => x | None => NaN end.

(** [abs(df_tau - df_Q) / max(df_tau, df_Q)] *)
Definition mismatch (dft dfq : pyfloat) : pyfloat :=
  d_div (fl_abs (d_sub dft dfq)) (py_max dft dfq).

(** The inputs are doubles as the driver passes them, numpy scalars from RD4
    and RD5: every operation is rounded to binary64, and a division by zero
    gives an infinity or NaN with a RuntimeWarning instead of raising. *)
Definition rd7_damping_linewidth (tau_s f0_hz Qfac : option pyfloat) : metrics :=
  if non_positive tau_s then sentinel w_tau f_tau
  else if non_positive f0_hz then sentinel w_f0 f_f0
  else if non_positive Qfac then sentinel w_Q f_Q
  else
    let alpha := d_div (Fin 1) (get tau_s) in
    let df_tau := d_div (Fin 1) (d_mul (d_mul (Fin 2) (Fin np_pi)) (get tau_s)) in
    let df_Q := d_div (get f0_hz) (get Qfac) in
    (* each test appends one message to [warnings] and one to [fixes] *)
    let d1 := if fl_ltb df_tau (Fin lit_0_1) then [(w_small, f_small)] else [] in
    let d2 := if fl_gtb df_tau (Fin 100000) then [(w_large, f_large)] else [] in
    let d3 :=
      if fl_gtb (mismatch df_tau df_Q) (Fin lit_0_3)
      then [(w_mismatch, f_mismatch)] else [] in
    let d := (d1 ++ d2 ++ d3)%list in
    mkMetrics alpha df_tau df_Q (map fst d) (map snd d).

(** The driver's recombined quality factor: [math.pi * f0_relax_hz * tau_s]. *)
Definition Q_final (f0_relax_hz tau_s : pyfloat) : pyfloat :=
  d_mul (d_mul (Fin np_pi) f0_relax_hz) tau_s.

End RD7.

(* ================================================================== *)
(** ** Arrays of finite samples *)

Definition Qsum (l : list Q) : Q := fold_right Qplus 0 l.

Definition Qlen (l : list Q) : Q := inject_Z (Z.of_nat (List.length l)).

(** [np.mean] and [np.var] of a non-empty array. *)
Definition Qmean (l : list Q) : Q := Qsum l / Qlen l.

Definition Qsqr (x : Q) : Q := x * x.

Definition Qvar (l : list Q) : Q :=
  let m := Qmean l in Qmean (map (fun x => Qsqr (x - m)) l).

(** [np.max] of the non-empty array [x :: r]. *)
Definition Qmaximum (x : Q) (r : list Q) : Q := fold_left Qmax r x.

(** [np.std(a) < c] for a positive literal [c]: the square root is not
    rational, so the test is decided on the variance
    ([sqrt v < c] iff [v < c * c] when [0 < c]).  On an empty array
    [np.std] is NaN and the test is false. *)
Definition std_ltb (a : list Q) (c : Q) : bool :=
  match a with
  | [] => false
  | _ => Qltb (Qvar a) (c * c)
  end.

(** Python indexing and slicing on a sequence of length [n]. *)
Definition py_getitem {A} (l : list A) (i : Z) : result A :=
  let n := Z.of_nat (List.length l) in
  let j := if (i <? 0)%Z then (i + n)%Z else i in
  if ((0 <=? j) && (j <? n))%Z%bool then
    match nth_error l (Z.to_nat j) with
    | Some a => Ok a
    | None => Raise IndexError
    end
  else Raise IndexError.

Definition slice_bound (n i : Z) : nat :=
  Z.to_nat (if (i <? 0)%Z then Z.max (i + n) 0 else Z.min i n).

(** [l[a:]] and [l[a:b]] *)
Definition py_slice_from {A} (l : list A) (a : Z) : list A :=
  skipn (slice_bound (Z.of_nat (List.length l)) a) l.

Definition py_slice {A} (l : list A) (a b : Z) : list A :=
  let n := Z.of_nat (List.length l) in
  let a' := slice_bound n a in
  let b' := slice_bound n b in
  firstn (b' - a') (skipn a' l).

(** [int(x)]: truncation toward zero. *)
Definition py_int (x : Q) : Z := Z.quot (Qnum x) (Zpos (Qden x)).

Definition Qmax_list (l : list Q) : Q :=
  match l with
  | [] => 0
  | x :: r => Qmaximum x r
  end.

(** [np.max(np.abs(a))]; numpy raises ValueError on an empty array. *)
Definition np_max_abs (a : list Q) : result Q :=
  match a with
  | [] => Raise ValueError
  | _ => Ok (Qmax_list (map Qabs a))
  end.

(** Sum of [f 0 .. f (n-1)]. *)
Definition Qsum_upto (f : nat -> Q) (n : nat) : Q := Qsum (map f (seq 0 n)).

(** The array [a] extended by zeros on both sides. *)
Definition padded (a : list Q) (j : Z) : Q :=
  if (j <? 0)%Z then 0 else nth (Z.to_nat j) a 0.

(** The moving average in the spec's words: the mean of the [M] samples
    of the zero-padded array that end at position [hi]. *)
Definition window_mean (a : list Q) (M : nat) (hi : nat) : Q :=
  Qsum_upto (fun k => padded a (Z.of_nat hi - Z.of_nat k)) M / inject_Z (Z.of_nat M).

(** Sample [n] of the full discrete convolution of [a] and [v]:
    sum over [k] of [v[k] * a[n - k]], samples outside [a] being zero. *)
Definition conv_full (a v : list Q) (n : nat) : Q :=
  Qsum_upto (fun k => nth k v 0 * (if (k <=? n)%nat then nth (n - k) a 0 else 0))
            (List.length v).

(** [np.convolve(a, v, mode="same")]: the central [max(len a, len v)]
    samples of the full convolution, starting at offset
    [(min(len a, len v) - 1) // 2]; ValueError when an operand is empty. *)
Definition np_convolve_same (a v : list Q) : result (list Q) :=
  match a, v with
  | [], _ | _, [] => Raise ValueError
  | _, _ =>
      let L := Nat.max (List.length a) (List.length v) in
      let off := ((Nat.min (List.length a) (List.length v) - 1) / 2)%nat in
      Ok (map (fun i => conv_full a v (i + off)) (seq 0 L))
  end.

(* ================================================================== *)
(** ** RD2: DC removal and normalisation (RD2_Clean_Quick_Look.py) *)

Module RD2.

Inductive warning : Type :=
| LargeDC          (* DC offset is large relative to signal amplitude *)
| SmallAmplitude   (* Signal amplitude is extremely small *)
| FlatSignal       (* Signal looks almost flat *)
| ZoomTooSmall.    (* zoom_ms window too small for plotting *)

(** The two returned arrays, with the values the stage prints. *)
Record cleaned : Type := mkCleaned {
  x0_relax : list Q;
  x1_relax : list Q;
  dc_offset : Q;
  peak : Q;
  norm_flag : bool
}.

Definition rd2_clean_quick_look (x_relax : list Q) (fs zoom_ms : Q) (do_norm : bool)
  : list warning * result cleaned :=
  let dc_offset := Qmean x_relax in
  let x0_relax := map (fun v => v - dc_offset) x_relax in
  match np_max_abs x_relax with
  | Raise e => ([], Raise e)
  | Ok amp =>
      let w1 := if Qltb ((5 # 100) * amp) (Qabs dc_offset) then [LargeDC] else [] in
      match np_max_abs x0_relax with
      | Raise e => (w1, Raise e)
      | Ok peak =>
          let norm_flag := do_norm && Qltb 0 peak in
          let x1_relax :=
            if norm_flag then map (fun v => v / peak) x0_relax else x0_relax in
          let w2 := if Qltb peak (1 # 10000) then [SmallAmplitude] else [] in
          let w3 := if std_ltb x1_relax (1 # 1000) then [FlatSignal] else [] in
          let zoom_N := py_int ((zoom_ms * (1 # 1000)) * fs) in
          let w4 := if (zoom_N <? 5)%Z then [ZoomTooSmall] else [] in
          (w1 ++ w2 ++ w3 ++ w4,
           Ok (mkCleaned x0_relax x1_relax dc_offset peak norm_flag))
      end
  end.

End RD2.

(* ================================================================== *)
(** ** RD3: envelope by rectification and moving average (RD3_Envelope.py) *)

Module RD3.

Inductive warning : Type :=
| FlatEnvelope     (* envelope magnitude is almost flat *)
| WindowTooSmall   (* smoothing window M is very small *)
| WindowTooLarge.  (* smoothing window too large, envelope may lose detail *)

(** [M = int(max(5, samples_per_period // 2))] with
    [samples_per_period = fs / f0], a division of doubles.  When the
    quotient overflows, [inf // 2] is NaN and [max(5, nan)] is 5. *)
Definition window (fs f0 : Q) : Z :=
  match d_div (Fin fs) (Fin f0) with
  | Fin samples_per_period =>
      let half := inject_Z (Qfloor (samples_per_period / 2)) in
      py_int (if Qltb 5 half then half else 5)
  | _ => 5%Z
  end.

(** [np.ones(M) / M] *)
Definition kernel (M : Z) : list Q := repeat (1 / inject_Z M) (Z.to_nat M).

Definition rd3_envelope (x1_relax : list Q) (fs f0 : Q)
  : list warning * result (list Q) :=
  let env_abs := map Qabs x1_relax in
  let w1 := if std_ltb env_abs (1 # 1000) then [FlatEnvelope] else [] in
  if Qeq_bool f0 0 then (w1, Raise ZeroDivisionError)
  else
    let M := window fs f0 in
    let w2 := if (M <? 5)%Z then [WindowTooSmall] else [] in
    let w3 :=
      if (Z.of_nat (List.length env_abs) / 4 <? M)%Z then [WindowTooLarge] else [] in
    (w1 ++ w2 ++ w3, np_convolve_same env_abs (kernel M)).

End RD3.

(* ================================================================== *)
(** ** Arrays of doubles *)

Definition fl_sum (l : list pyfloat) : pyfloat := fold_right fl_add (Fin 0) l.

Definition fl_of_nat (n : nat) : pyfloat := Fin (inject_Z (Z.of_nat n)).

(** [np.mean]: NaN (0/0) on an empty array. *)
Definition fl_mean (l : list pyfloat) : pyfloat :=
  fl_div (fl_sum l) (fl_of_nat (List.length l)).

Definition fl_sqr (x : pyfloat) : pyfloat := fl_mul x x.

Definition fl_var (l : list pyfloat) : pyfloat :=
  let m := fl_mean l in fl_mean (map (fun x => fl_sqr (fl_sub x m)) l).

(** [np.diff] *)
Fixpoint np_diff (l : list pyfloat) : list pyfloat :=
  match l with
  | a :: ((b :: _) as r) => fl_sub b a :: np_diff r
  | _ => []
  end.

(** [sqrt(v) > r], decided without computing the square root: for finite
    [v >= 0] and finite [r], [sqrt v > r] iff [r < 0] or [v > r * r];
    the square root of a negative number or of NaN is NaN. *)
Definition fl_sqrt_gtb (v r : pyfloat) : bool :=
  match v, r with
  | NaN, _ | _, NaN => false
  | NInf, _ => false
  | _, PInf => false
  | Fin a, Fin c => Qle_bool 0 a && (Qltb c 0 || Qltb (c * c) a)
  | Fin a, NInf => Qle_bool 0 a
  | PInf, _ => true
  end.

(** Index of the first element satisfying [p] ([np.where(...)[0][0]]). *)
Fixpoint first_index {A} (p : A -> bool) (l : list A) : option nat :=
  match l with
  | [] => None
  | x :: r => if p x then Some O
              else match first_index p r with
                   | Some k => Some (S k)
                   | None => None
                   end
  end.

(* ================================================================== *)
(** ** RD4: log-linear fit of the envelope (RD4_Fit_Decay.py) *)

Module RD4.

Inductive warning : Type :=
| GuardTooLarge   (* guard_periods too large, no envelope left to fit *)
| ShortFit        (* very short fitting region *)
| PoorFit         (* RMSE indicates a poor exponential fit *)
| NegativeTau.    (* negative tau detected *)

(** The returned tuple [(tau_s, Q_env, fit_rmse, (i0, i1))]. *)
Record fit : Type := mkFit {
  tau_s : pyfloat;
  Q_env : pyfloat;
  fit_rmse : pyfloat;
  fit_slice : Z * Z
}.

(** [t = np.arange(len(env)) / fs]: an array divided by a scalar, so a
    zero [fs] gives infinities and NaN, not an exception. *)
Definition time_axis (n : nat) (fs : Q) : list pyfloat :=
  map (fun i => fl_div (fl_of_nat i) (Fin fs)) (seq 0 n).

(** [int(fs / f0)] for a non-zero [f0]: the quotient of doubles, truncated;
    [int] raises OverflowError on an infinity (and ValueError on NaN). *)
Definition samples_per_period (fs f0 : Q) : result Z :=
  match d_div (Fin fs) (Fin f0) with
  | Fin q => Ok (py_int q)
  | NaN => Raise ValueError
  | _ => Raise OverflowError
  end.

(** RD4-A, the choice of the fit window: the printed warning (if any), the
    start [i0], the reference level [env0] and the end [i1]. *)
Definition fit_start (n samples_per_period guard_periods : Z) : bool * Z :=
  let i0 := (guard_periods * samples_per_period)%Z in
  if (n <=? i0)%Z then (true, 0%Z) else (false, i0).

Definition fit_stop (env : list Q) (i0 : Z) (env0 drop_frac : Q) : Z :=
  match first_index (fun v => Qle_bool v (env0 * drop_frac)) (py_slice_from env i0) with
  | Some k => (i0 + Z.of_nat k)%Z
  | None => Z.of_nat (List.length env)
  end.

Section Numpy.

(** numpy's elementary functions and its degree-1 least-squares fit
    [np.polyfit(x, y, 1)], which returns (slope, intercept). *)
Variable np_log : Q -> pyfloat.
Variable np_exp : pyfloat -> pyfloat.
Variable np_sqrt : pyfloat -> pyfloat.
Variable np_polyfit1 : list pyfloat -> list pyfloat -> result (pyfloat * pyfloat).

(** RD4-B and RD4-C on the selected window. *)
Definition fit_window (t_fit : list pyfloat) (y_fit : list Q) (f0 : Q) (i0 i1 : Z)
  : list warning * result fit :=
  let ln_y := map (fun y => np_log (y + (1 # 1000000000000))) y_fit in
  match np_polyfit1 t_fit ln_y with
  | Raise e => ([], Raise e)
  | Ok (b, a) =>
      let tau_s := fl_div (Fin (-1)) b in
      let Q_env := fl_mul (fl_mul (Fin np_pi) (Fin f0)) tau_s in
      let y_pred := map (fun t => np_exp (fl_add a (fl_mul b t))) t_fit in
      let sq_err :=
        map (fun yp => fl_sqr (fl_sub (Fin (fst yp)) (snd yp))) (combine y_fit y_pred) in
      let fit_rmse := np_sqrt (fl_mean sq_err) in
      let w3 := if fl_gtb fit_rmse (Fin (5 # 100)) then [PoorFit] else [] in
      let w4 := if fl_ltb tau_s (Fin 0) then [NegativeTau] else [] in
      (w3 ++ w4, Ok (mkFit tau_s Q_env fit_rmse (i0, i1)))
  end.

Definition rd4_fit_decay (env : list Q) (fs f0 : Q) (guard_periods : Z) (drop_frac : Q)
  : list warning * result fit :=
  if Qeq_bool f0 0 then ([], Raise ZeroDivisionError)
  else
    match samples_per_period fs f0 with
    | Raise e => ([], Raise e)
    | Ok spp =>
        let n := Z.of_nat (List.length env) in
        let '(fallback, i0) := fit_start n spp guard_periods in
        let w1 := if fallback then [GuardTooLarge] else [] in
        match (if (i0 <? n)%Z then py_getitem env i0 else py_getitem env 0) with
        | Raise e => (w1, Raise e)
        | Ok env0 =>
            let i1 := fit_stop env i0 env0 drop_frac in
            let t := time_axis (List.length env) fs in
            let t_fit := py_slice t i0 i1 in
            let y_fit := py_slice env i0 i1 in
            let w2 := if (List.length y_fit <? 20)%nat then [ShortFit] else [] in
            (* the progress line prints t_fit[0] and t_fit[-1] *)
            match py_getitem t_fit 0, py_getitem t_fit (-1) with
            | Raise e, _ | _, Raise e => (w1 ++ w2, Raise e)
            | Ok _, Ok _ =>
                let '(w, r) := fit_window t_fit y_fit f0 i0 i1 in
                (w1 ++ w2 ++ w, r)
            end
        end
    end.

End Numpy.

End RD4.

(* ================================================================== *)
(** ** RD5: frequency from zero-crossings (RD5_freq_est.py) *)

Module RD5.

Inductive warning : Type :=
| TooFewCrossings   (* Not enough zero-crossings detected *)
| IrregularSpacing  (* Zero-crossing intervals vary a lot *)
| TooFewIntervals   (* Too few intervals for reliable frequency estimate *)
| OutOfBand.        (* Estimated f0 out of expected QCM range *)

(** [np.signbit]: true on negative samples. *)
Definition signbit (v : Q) : bool := Qltb v 0.

(** [np.where(s[:-1] != s[1:])[0]], scanning from index [k]. *)
Fixpoint sign_changes (k : nat) (x : list Q) : list nat :=
  match x with
  | a :: ((b :: _) as r) =>
      if xorb (signbit a) (signbit b) then k :: sign_changes (S k) r
      else sign_changes (S k) r
  | _ => []
  end.

(** Interpolated time of the crossing between samples [k] and [k+1]. *)
Definition crossing_time (x : list Q) (fs : Q) (k : nat) : pyfloat :=
  let x0 := nth k x 0 in
  let x1 := nth (S k) x 0 in
  let frac := fl_div (Fin x0) (Fin (x0 - x1 + (1 # 1000000000000))) in
  fl_div (fl_add (fl_of_nat k) frac) (Fin fs).

Definition rd5_freq_from_relax (x1_relax : list Q) (fs : Q) (min_crossings : Z)
  : list warning * (pyfloat * Z) :=
  let x := x1_relax in
  let idx := sign_changes 0 x in
  if (Z.of_nat (List.length idx) <? min_crossings)%Z then ([TooFewCrossings], (NaN, 0%Z))
  else
    let zt := map (crossing_time x fs) idx in
    let dt_test := np_diff zt in
    let w1 :=
      if fl_sqrt_gtb (fl_var dt_test) (fl_mul (Fin (1 # 10)) (fl_mean dt_test))
      then [IrregularSpacing] else [] in
    let dt := np_diff zt in
    if (List.length dt <? 2)%nat then (w1 ++ [TooFewIntervals], (NaN, 0%Z))
    else
      let T_est := fl_mul (Fin 2) (fl_mean dt) in
      let f0_relax := fl_div (Fin 1) T_est in
      let n_cycles_used := (Z.of_nat (List.length dt) + 1)%Z in
      let w2 :=
        if fl_ltb f0_relax (Fin 100000) || fl_gtb f0_relax (Fin 50000000)
        then [OutOfBand] else [] in
      (w1 ++ w2, (f0_relax, n_cycles_used)).

End RD5.

(* ================================================================== *)
(** ** RD6: validation and CSV export (RD6_summary.py) *)

Module RD6.

Open Scope string_scope.

Inductive warning : Type :=
| F0NaN            (* f0 is NaN. Results not saved. *)
| TauNonPositive   (* tau_s <= 0 is not physically valid *)
| QNonPositive     (* Q <= 0, invalid physical value *)
| HighRMSE         (* High RMSE indicates a poor exponential fit *)
| F0OutOfRange     (* f0 outside expected QCM range (0.1-50 MHz) *)
| LowQ             (* Q extremely low *)
| DfTauSmall
| DfTauLarge
| DfQSmall
| DfQLarge.

(** A CSV field as handed to [csv.writer]. *)
Inductive cell : Type :=
| CStr (s : string)
| CNum (x : pyfloat)
| CNone.

Definition row : Type := list cell.

(** The file at [csv_path]: [None] when the path does not exist, otherwise
    the rows written so far. *)
Definition csv_file : Type := option (list row).

Definition opt_cell (v : option pyfloat) : cell :=
  match v with Some x => CNum x | None => CNone end.

(** [sorted(extras.keys())] *)
Fixpoint insert_key (k : string) (l : list string) : list string :=
  match l with
  | [] => [k]
  | h :: t => if String.leb k h then k :: l else h :: insert_key k t
  end.

Definition sorted_keys (extras : list (string * cell)) : list string :=
  fold_right insert_key [] (map fst extras).

(** The order of [sorted] on strings. *)
Definition key_le (a b : string) : Prop := String.leb a b = true.

Fixpoint lookup (k : string) (extras : list (string * cell)) : cell :=
  match extras with
  | [] => CNone
  | (k', v) :: t => if String.eqb k k' then v else lookup k t
  end.

Definition base_header : list string :=
  ["timestamp"; "f0_hz"; "tau_s"; "Q"; "fit_rmse"; "alpha"; "df_tau"; "df_Q"].

Definition linewidth_warnings (v : option pyfloat) (small large : warning) : list warning :=
  match v with
  | None => []
  | Some d =>
      ((if fl_ltb d (Fin (1 # 10)) then [small] else []) ++
       (if fl_gtb d (Fin 100000) then [large] else []))%list
  end.

(** [header = base_header + extra_keys] and [row = base_row + extra_vals] *)
Definition header (extras : list (string * cell)) : row :=
  map CStr (base_header ++ sorted_keys extras)%list.

Definition record (timestamp : string) (f0 tau_s Qfac rmse : pyfloat)
    (alpha df_tau df_Q : option pyfloat) (extras : list (string * cell)) : row :=
  ([CStr timestamp; CNum f0; CNum tau_s; CNum Qfac; CNum rmse;
    opt_cell alpha; opt_cell df_tau; opt_cell df_Q] ++
   map (fun k => lookup k extras) (sorted_keys extras))%list.

(** [p.open("a")] followed by the optional header and the row. *)
Definition append_row (file : csv_file) (header r : row) : csv_file :=
  match file with
  | None => Some [header; r]
  | Some rows => Some (rows ++ [r])%list
  end.

(** [timestamp] stands for [datetime.now().isoformat(timespec="seconds")];
    the result is the printed warnings and the file after the call. *)
Definition rd6_save_results (timestamp : string)
    (f0_hz : option pyfloat) (tau_s Qfac rmse : pyfloat)
    (alpha df_tau df_Q : option pyfloat)
    (file : csv_file) (extras : list (string * cell))
  : list warning * csv_file :=
  match f0_hz with
  | None => ([F0NaN], file)
  | Some f0 =>
      if fl_neb f0 f0 then ([F0NaN], file)
      else if fl_leb tau_s (Fin 0) then ([TauNonPositive], file)
      else if fl_leb Qfac (Fin 0) then ([QNonPositive], file)
      else
        let w1 := if fl_gtb rmse (Fin (5 # 100)) then [HighRMSE] else [] in
        let w2 :=
          if fl_ltb f0 (Fin 100000) || fl_gtb f0 (Fin 50000000)
          then [F0OutOfRange] else [] in
        let w3 := if fl_ltb Qfac (Fin 50) then [LowQ] else [] in
        let w4 := linewidth_warnings df_tau DfTauSmall DfTauLarge in
        let w5 := linewidth_warnings df_Q DfQSmall DfQLarge in
        let r := record timestamp f0 tau_s Qfac rmse alpha df_tau df_Q extras in
        ((w1 ++ w2 ++ w3 ++ w4 ++ w5)%list, append_row file (header extras) r)
  end.

End RD6.

(* ================================================================== *)
(** ** Executable stand-ins for the numpy kernels

    [RD4] is parametric in numpy's [log], [exp], [sqrt] and [polyfit].  To
    run it, this module supplies rational stand-ins: truncated series for the
    logarithm and the exponential, an integer square root at nine decimals,
    and the closed-form least-squares line. *)

Module Ref.

Fixpoint Qpow_nat (x : Q) (n : nat) : Q :=
  match n with
  | O => 1
  | S k => x * Qpow_nat x k
  end.

Fixpoint fact_Z (n : nat) : Z :=
  match n with
  | O => 1%Z
  | S k => (Z.of_nat n * fact_Z k)%Z
  end.

Definition terms : nat := 16.

(** exp x = sum of x^k / k! *)
Definition exp_series (x : Q) : Q :=
  Qsum (map (fun k => Qpow_nat x k / inject_Z (fact_Z k)) (seq 0 terms)).

(** log x = 2 * sum of z^(2k+1) / (2k+1) with z = (x - 1) / (x + 1) *)
Definition log_series (x : Q) : Q :=
  let z := (x - 1) / (x + 1) in
  2 * Qsum (map (fun k => Qpow_nat z (2 * k + 1) / inject_Z (Z.of_nat (2 * k + 1)))
                (seq 0 terms)).

Definition np_log (x : Q) : pyfloat :=
  if Qltb x 0 then NaN
  else if Qeq_bool x 0 then NInf
  else Fin (log_series x).

Definition np_exp (x : pyfloat) : pyfloat :=
  match x with
  | Fin a => Fin (exp_series a)
  | PInf => PInf
  | NInf => Fin 0
  | NaN => NaN
  end.

Definition np_sqrt (x : pyfloat) : pyfloat :=
  match x with
  | Fin a =>
      if Qltb a 0 then NaN
      else Fin (Z.sqrt (Qfloor (a * 1000000000000000000)) # 1000000000)
  | PInf => PInf
  | _ => NaN
  end.

(** Least-squares line through the points [(x_i, y_i)]:
    slope [(n Sxy - Sx Sy) / (n Sxx - Sx^2)], intercept [(Sy - slope Sx) / n].
    numpy raises TypeError on empty input and LinAlgError on non-finite
    data; with a single abscissa numpy answers with a minimum-norm solution,
    which this closed form does not reproduce. *)
Definition np_polyfit1 (x y : list pyfloat) : result (pyfloat * pyfloat) :=
  match x with
  | [] => Raise TypeError
  | _ =>
      if forallb is_finite x && forallb is_finite y then
        let n := fl_of_nat (List.length x) in
        let Sx := fl_sum x in
        let Sy := fl_sum y in
        let Sxy := fl_sum (map (fun p => fl_mul (fst p) (snd p)) (combine x y)) in
        let Sxx := fl_sum (map fl_sqr x) in
        let b := fl_div (fl_sub (fl_mul n Sxy) (fl_mul Sx Sy))
                        (fl_sub (fl_mul n Sxx) (fl_mul Sx Sx)) in
        let a := fl_div (fl_sub Sy (fl_mul b Sx)) n in
        Ok (b, a)
      else Raise LinAlgError
  end.

End Ref.


(* ================================================================== *)
(** ** RD1: slicing the capture out of the raw file
       (R7_Damping_Linewidth.py, [rd0_rd1_mode_knobs_load_slice]) *)

Module RD1.

(** NEW FILE mode and OLD FILE mode with metadata: the offsets are byte
    counts of 16-bit samples,
    [start_samp = start // 2], [nsamp = nbytes // 2],
    [x_relax = raw[start_samp : start_samp + nsamp]]. *)
Definition slice_capture (raw : list Q) (start_bytes nbytes : Z) : list Q :=
  let start_samp := (start_bytes / 2)%Z in
  let nsamp := (nbytes / 2)%Z in
  let end_samp := (start_samp + nsamp)%Z in
  py_slice raw start_samp end_samp.

End RD1.

(* ================================================================== *)
(** ** RD_summary_tools.py: statistics over the CSV written by RD6 *)

(** Python's builtin [min(a, b)]: keeps [a] unless [b < a]. *)
Definition py_min (a b : pyfloat) : pyfloat :=
  if fl_ltb b a then b else a.

Module Summary.

Local Open Scope string_scope.

(** A row as [csv.DictReader] yields it: field name to field text, [None]
    for a field the line was too short to hold.  On repeated field names the
    last one wins, as in [dict(zip(fieldnames, row))]. *)
Definition dict : Type := list (string * option string).

Fixpoint dict_get (k : string) (d : dict) : option (option string) :=
  match d with
  | [] => None
  | (k', v) :: t =>
      match dict_get k t with
      | Some x => Some x
      | None => if String.eqb k k' then Some v else None
      end
  end.

Fixpoint zip_row (fieldnames row : list string) : dict :=
  match fieldnames, row with
  | [], _ => []
  | h :: hs, [] => (h, None) :: zip_row hs []
  | h :: hs, v :: vs => (h, Some v) :: zip_row hs vs
  end.

Definition is_empty_row (r : list string) : bool :=
  match r with [] => true | _ => false end.

(** [list(csv.DictReader(f))] on the lines of the file: the first line
    gives the field names, empty lines are skipped. *)
Definition dict_reader (lines : list (list string)) : list dict :=
  match lines with
  | [] => []
  | fieldnames :: rows =>
      map (zip_row fieldnames) (filter (fun r => negb (is_empty_row r)) rows)
  end.

(** The summary line of [_col], as data. *)
Inductive col : Type :=
| NoUsableData
| Stats (n : nat) (lo mean hi : pyfloat).

(** What [rd_stats] prints. *)
Inductive report : Type :=
| NoFile
| NoRows
| Report (f0_hz tau_s Qf rmse : col) (announced : Z)
    (runs : list (list (string * option string))).

Definition fields : list string :=
  ["timestamp"; "f0_hz"; "tau_s"; "Q";
   "fit_rmse"; "alpha"; "df_tau"; "df_Q";
   "mode"; "fs_hz"; "guard_periods"; "drop_frac"].

(** The [k=value] items printed for one run: the listed fields that the row
    has and whose text is not empty. *)
Fixpoint printed_items (ks : list string) (r : dict) : list (string * option string) :=
  match ks with
  | [] => []
  | k :: t =>
      match dict_get k r with
      | Some (Some s) =>
          if String.eqb s "" then printed_items t r else (k, Some s) :: printed_items t r
      | Some None => (k, None) :: printed_items t r
      | None => printed_items t r
      end
  end.

(** All results of a list of computations, or the first exception. *)
Fixpoint sequence {A} (l : list (result A)) : result (list A) :=
  match l with
  | [] => Ok []
  | Raise e :: _ => Raise e
  | Ok a :: t => match sequence t with
                 | Ok r => Ok (a :: r)
                 | Raise e => Raise e
                 end
  end.

Section Parsing.

(** [float(s)] on a string; [None] stands for ValueError. *)
Variable py_float : string -> option pyfloat.

(** [_get_float(row, *keys)].  A field that the row lacks or whose text is
    empty is skipped; the first other field decides, a text that does not
    parse giving NaN.  A [None] field is passed to [float], which raises
    TypeError. *)
Fixpoint _get_float (row : dict) (keys : list string) : result pyfloat :=
  match keys with
  | [] => Ok NaN
  | k :: ks =>
      match dict_get k row with
      | Some (Some s) =>
          if String.eqb s "" then _get_float row ks
          else match py_float s with
               | Some v => Ok v
               | None => Ok NaN
               end
      | Some None => Raise TypeError
      | None => _get_float row ks
      end
  end.

(** [_col(values, name)] without the formatting. *)
Definition _col (values : list pyfloat) : col :=
  let vals := filter (fun v => negb (is_nan v)) values in
  match vals with
  | [] => NoUsableData
  | v :: r =>
      Stats (List.length vals) (fold_left py_min r v) (fl_mean vals)
            (fold_left py_max r v)
  end.

(** [rd_stats(csv_path, tail)]; [file] is the text of the file as lines of
    fields, [None] when the path does not exist. *)
Definition rd_stats (file : option (list (list string))) (tail : Z) : result report :=
  match file with
  | None => Ok NoFile
  | Some lines =>
      let rows := dict_reader lines in
      match rows with
      | [] => Ok NoRows
      | _ =>
          match sequence (map (fun r => _get_float r ["f0_hz"]) rows),
                sequence (map (fun r => _get_float r ["tau_s"]) rows),
                sequence (map (fun r => _get_float r ["Q"]) rows),
                sequence (map (fun r => _get_float r ["fit_rmse"; "fft_rmse"]) rows) with
          | Ok f0s, Ok taus, Ok Qs, Ok rmses =>
              Ok (Report (_col f0s) (_col taus) (_col Qs) (_col rmses)
                    (Z.min tail (Z.of_nat (List.length rows)))
                    (map (printed_items fields) (py_slice_from rows (- tail))))
          | Raise e, _, _, _ | _, Raise e, _, _
          | _, _, Raise e, _ | _, _, _, Raise e => Raise e
          end
      end
  end.

End Parsing.

(** The text [csv.writer] puts in a field: strings as they are, [None] as the
    empty text, numbers through [str]. *)
Definition render (py_str : pyfloat -> string) (c : RD6.cell) : string :=
  match c with
  | RD6.CStr s => s
  | RD6.CNum x => py_str x
  | RD6.CNone => ""
  end.

(** The file RD6 maintains, as [csv.reader] reads it back. *)
Definition render_file (py_str : pyfloat -> string) (file : RD6.csv_file)
  : option (list (list string)) :=
  match file with
  | None => None
  | Some rows => Some (map (map (render py_str)) rows)
  end.

End Summary.

(* ================================================================== *)
(** ** An executable stand-in for [float(s)]

    [Summary] is parametric in Python's [float].  To run it, this module
    reads the plain spellings: [nan], [inf], [-inf], and decimals with an
    optional sign and an optional fraction ([5000000.0], [-12], [.5]).
    Exponents, surrounding blanks and underscores, which [float] also
    accepts, are not covered. *)

Module RefText.

Local Open Scope string_scope.

Definition digit_of (c : ascii) : option Z :=
  let n := nat_of_ascii c in
  if ((48 <=? n) && (n <=? 57))%nat then Some (Z.of_nat (n - 48)) else None.

(** The value of a run of digits and the number of digits read. *)
Fixpoint parse_digits (s : string) (acc : Z) (cnt : nat) : option (Z * nat) :=
  match s with
  | EmptyString => Some (acc, cnt)
  | String c r =>
      match digit_of c with
      | Some d => parse_digits r (10 * acc + d)%Z (S cnt)
      | None => None
      end
  end.

Fixpoint split_dot (s : string) : string * option string :=
  match s with
  | EmptyString => (EmptyString, None)
  | String c r =>
      if Ascii.eqb c "."%char then (EmptyString, Some r)
      else let '(a, b) := split_dot r in (String c a, b)
  end.

Definition parse_unsigned (s : string) : option Q :=
  let '(ip, fp) := split_dot s in
  match parse_digits ip 0 0,
        parse_digits (match fp with Some f => f | None => "" end) 0 0 with
  | Some (v, ni), Some (f, nf) =>
      if (ni + nf =? 0)%nat then None
      else Some (Qred ((v * 10 ^ Z.of_nat nf + f) # Z.to_pos (10 ^ Z.of_nat nf)))
  | _, _ => None
  end.

Definition py_float (s : string) : option pyfloat :=
  if String.eqb s "nan" then Some NaN
  else if String.eqb s "inf" then Some PInf
  else if String.eqb s "-inf" then Some NInf
  else match s with
       | String "-"%char r => option_map (fun q => Fin (- q)) (parse_unsigned r)
       | _ => option_map Fin (parse_unsigned s)
       end.

End RefText.

(* ================================================================== *)
(** ** The fit window of the decay fitter, stated on its own *)

Module RD4_Spec.

(** The start [i0 = guard_periods * samples_per_period], or 0 when that
    index is not inside the envelope. *)
Definition start_index (n : nat) (samples_per_period guard_periods : Z) : nat :=
  let start := (guard_periods * samples_per_period)%Z in
  if (Z.of_nat n <=? start)%Z then 0%nat else Z.to_nat start.


End RD4_Spec.

(* ================================================================== *)
(** * Properties *)

(** ** Comparisons on rationals *)

Lemma Qltb_lt (a b : Q) : Qltb a b = true <-> a < b.
Proof.
  unfold Qltb. rewrite negb_true_iff. split; intros H.
  - apply Qnot_le_lt. intros Hle. apply Qle_bool_iff in Hle. congruence.
  - destruct (Qle_bool b a) eqn:E; [|reflexivity].
    apply Qle_bool_iff in E. exfalso. apply (Qlt_not_le _ _ H E).
Qed.

Lemma Qltb_ge (a b : Q) : Qltb a b = false <-> b <= a.
Proof.
  unfold Qltb. rewrite negb_false_iff. apply Qle_bool_iff.
Qed.

Lemma Qle_bool_gt (a b : Q) : Qle_bool a b = false <-> b < a.
Proof.
  rewrite <- Qltb_lt. unfold Qltb. rewrite negb_true_iff. reflexivity.
Qed.

Lemma Qeq_bool_false (a b : Q) : ~ a == b -> Qeq_bool a b = false.
Proof.
  intros H. destruct (Qeq_bool a b) eqn:E; [|reflexivity].
  apply Qeq_bool_iff in E. contradiction.
Qed.

Lemma fl_div_fin (a b : Q) : ~ b == 0 -> fl_div (Fin a) (Fin b) = Fin (a / b).
Proof.
  intros H. unfold fl_div. now rewrite (Qeq_bool_false _ _ H).
Qed.

Lemma np_pi_pos : 0 < np_pi.
Proof. reflexivity. Qed.

(* ------------------------------------------------------------------ *)
(** ** Rounding to binary64: the relative error of a normal result *)

Lemma pow2_pos (e : Z) : 0 < pow2 e.
Proof. apply Qpower_0_lt. reflexivity. Qed.

Lemma pow2_add (a b : Z) : pow2 (a + b) == pow2 a * pow2 b.
Proof. apply Qpower_plus. discriminate. Qed.

Lemma pow2_le (a b : Z) : (a <= b)%Z -> pow2 a <= pow2 b.
Proof. intros H. apply Qpower_le_compat_l; [exact H|discriminate]. Qed.

Lemma pow2_inject (k : Z) : (0 <= k)%Z -> pow2 k == inject_Z (2 ^ k).
Proof. intros H. unfold pow2. now rewrite Zpower_Qpower. Qed.

(** [ilog2] never overshoots. *)
Lemma ilog2_le (q : Q) : 0 < q -> pow2 (ilog2 q) <= q.
Proof.
  intros Hq. unfold ilog2.
  set (ln := Z.log2 (Qnum q)). set (ld := Z.log2 (Zpos (Qden q))).
  destruct (Qle_bool (pow2 (ln - ld)) q) eqn:E; [now apply Qle_bool_iff|].
  destruct q as [n d]. cbn [Qnum Qden] in *.
  assert (Hn : (0 < n)%Z) by (unfold Qlt in Hq; simpl in Hq; lia).
  destruct (Z.log2_spec n Hn) as [Hn1 _]. fold ln in Hn1.
  destruct (Z.log2_spec (Zpos d) (Pos2Z.is_pos d)) as [_ Hd2]. fold ld in Hd2.
  assert (Hln : (0 <= ln)%Z) by apply Z.log2_nonneg.
  assert (Hld : (0 <= ld)%Z) by apply Z.log2_nonneg.
  rewrite (Qmake_Qdiv n d).
  apply Qle_shift_div_l.
  { change 0 with (inject_Z 0). rewrite <- Zlt_Qlt. apply Pos2Z.is_pos. }
  apply Qle_trans with (pow2 (ln - ld - 1) * pow2 (ld + 1)).
  - apply Qmult_le_l; [apply pow2_pos|].
    rewrite pow2_inject by lia. rewrite <- Zle_Qle.
    replace (ld + 1)%Z with (Z.succ ld) by lia. lia.
  - rewrite <- pow2_add. replace (ln - ld - 1 + (ld + 1))%Z with ln by lia.
    rewrite pow2_inject by exact Hln. now rewrite <- Zle_Qle.
Qed.

Lemma round_half_even_err (q : Q) :
  q - (1 # 2) <= inject_Z (round_half_even q) /\
  inject_Z (round_half_even q) <= q + (1 # 2).
Proof.
  unfold round_half_even.
  pose proof (Qfloor_le q) as H1. pose proof (Qlt_floor q) as H2.
  rewrite inject_Z_plus in H2. change (inject_Z 1) with 1 in H2.
  set (f := Qfloor q) in *.
  destruct (Qltb (q - inject_Z f) (1 # 2)) eqn:E1.
  - apply Qltb_lt in E1. split; lra.
  - apply Qltb_ge in E1.
    destruct (Qltb (1 # 2) (q - inject_Z f)) eqn:E2.
    + rewrite inject_Z_plus. change (inject_Z 1) with 1. split; lra.
    + apply Qltb_ge in E2. destruct (Z.even f).
      * split; lra.
      * rewrite inject_Z_plus. change (inject_Z 1) with 1. split; lra.
Qed.

(** A positive rational in the range of the normal doubles rounds to a
    finite double within the relative error [2^-53]. *)
Lemma b64_pos_err (a : Q) :
  pow2 (-1022) <= a -> a <= pow2 1023 ->
  exists r, b64_pos a = Fin r /\
            a * (1 - pow2 (-53)) <= r /\ r <= a * (1 + pow2 (-53)).
Proof.
  intros Hlo Hhi.
  assert (Ha : 0 < a) by (apply Qlt_le_trans with (pow2 (-1022)); [apply pow2_pos|exact Hlo]).
  unfold b64_pos.
  set (e := Z.max (ilog2 a) (-1022)).
  assert (He : pow2 e <= a).
  { unfold e. destruct (Z.max_spec (ilog2 a) (-1022)) as [[_ ->]|[_ ->]];
      [exact Hlo|now apply ilog2_le]. }
  set (ulp := pow2 (e - 52)).
  assert (Hulp : 0 < ulp) by apply pow2_pos.
  destruct (round_half_even_err (a / ulp)) as [M1 M2].
  set (m := inject_Z (round_half_even (a / ulp))) in *.
  assert (Hdiv : a / ulp * ulp == a) by (field; lra).
  assert (Hhalf : ulp * (1 # 2) <= a * pow2 (-53)).
  { apply Qle_trans with (pow2 e * pow2 (-53)).
    - unfold ulp. replace (e - 52)%Z with (e + -53 + 1)%Z by lia.
      rewrite !pow2_add. change (pow2 1) with 2. lra.
    - apply Qmult_le_compat_r; [exact He|apply Qlt_le_weak, pow2_pos]. }
  assert (R1 : a * (1 - pow2 (-53)) <= m * ulp).
  { apply Qle_trans with ((a / ulp - (1 # 2)) * ulp).
    - lra.
    - apply Qmult_le_compat_r; [exact M1|lra]. }
  assert (R2 : m * ulp <= a * (1 + pow2 (-53))).
  { apply Qle_trans with ((a / ulp + (1 # 2)) * ulp).
    - apply Qmult_le_compat_r; [exact M2|lra].
    - lra. }
  assert (Hno : Qle_bool (pow2 1024) (m * ulp) = false).
  { apply Qle_bool_gt.
    apply Qle_lt_trans with (a * (1 + pow2 (-53))); [exact R2|].
    apply Qle_lt_trans with (pow2 1023 * (1 + pow2 (-53))).
    - apply Qmult_le_compat_r; [exact Hhi|].
      pose proof (pow2_pos (-53)). lra.
    - reflexivity. }
  rewrite Hno. eexists. split; [reflexivity|].
  rewrite Qred_correct. split; assumption.
Qed.

(** The same for either sign. *)
Lemma b64_err (q : Q) :
  pow2 (-1022) <= Qabs q -> Qabs q <= pow2 1023 ->
  exists r, b64 q = Fin r /\ Qabs (r - q) <= pow2 (-53) * Qabs q.
Proof.
  intros Hlo Hhi. pose proof (pow2_pos (-1022)) as Hp.
  unfold b64.
  destruct (Qeq_bool q 0) eqn:E0.
  { apply Qeq_bool_iff in E0. rewrite E0 in Hlo. change (Qabs 0) with 0 in Hlo.
    exfalso. apply (Qlt_irrefl 0). now apply Qlt_le_trans with (pow2 (-1022)). }
  destruct (Qltb q 0) eqn:E.
  - apply Qltb_lt in E.
    rewrite (Qabs_neg q) in Hlo, Hhi by lra.
    destruct (b64_pos_err (- q) Hlo Hhi) as (r & -> & R1 & R2).
    exists (- r). split; [reflexivity|].
    rewrite (Qabs_neg q) by lra.
    apply Qabs_Qle_condition. split; lra.
  - apply Qltb_ge in E.
    rewrite (Qabs_pos q) in Hlo, Hhi by exact E.
    destruct (b64_pos_err q Hlo Hhi) as (r & -> & R1 & R2).
    exists r. split; [reflexivity|].
    rewrite (Qabs_pos q) by exact E.
    apply Qabs_Qle_condition. split; lra.
Qed.

(** The rounding error with the unit roundoff written out. *)
Lemma b64_rel (x : Q) :
  pow2 (-1022) <= x -> x <= pow2 1023 ->
  exists r, b64 x = Fin r /\
            (1 - eps64) * x <= r /\ r <= (1 + eps64) * x /\ 0 < r.
Proof.
  intros Hlo Hhi.
  assert (Hx : 0 < x) by (apply Qlt_le_trans with (pow2 (-1022)); [apply pow2_pos|exact Hlo]).
  destruct (b64_pos_err x Hlo Hhi) as (r & E & R1 & R2).
  change (pow2 (-53)) with eps64 in R1, R2.
  exists r. split.
  - unfold b64. rewrite (Qeq_bool_false x 0) by lra.
    rewrite (proj2 (Qltb_ge x 0)) by lra. exact E.
  - unfold eps64 in *. repeat split; lra.
Qed.

Lemma d_mul_fin (a b : Q) : d_mul (Fin a) (Fin b) = b64 (a * b).
Proof. reflexivity. Qed.

Lemma d_div_fin (a b : Q) : ~ b == 0 -> d_div (Fin a) (Fin b) = b64 (a / b).
Proof. intros H. unfold d_div. now rewrite fl_div_fin. Qed.

Lemma d_sub_fin (a b : Q) : d_sub (Fin a) (Fin b) = b64 (a + - b).
Proof. reflexivity. Qed.

(** Relative bounds through a rounding, a product and a quotient. *)
Lemma rel_round (l h x r' r : Q) :
  l * x <= r' -> r' <= h * x ->
  (1 - eps64) * r' <= r -> r <= (1 + eps64) * r' ->
  l * (1 - eps64) * x <= r /\ r <= h * (1 + eps64) * x.
Proof. unfold eps64. intros H1 H2 H3 H4. split; lra. Qed.

Lemma rel_mul (l h x r y : Q) :
  0 < y -> l * x <= r -> r <= h * x ->
  l * (x * y) <= r * y /\ r * y <= h * (x * y).
Proof.
  intros Hy H1 H2. split.
  - setoid_replace (l * (x * y)) with (l * x * y) by ring.
    apply Qmult_le_compat_r; [exact H1|lra].
  - setoid_replace (h * (x * y)) with (h * x * y) by ring.
    apply Qmult_le_compat_r; [exact H2|lra].
Qed.

Lemma rel_inv (l h x r : Q) :
  0 < l -> 0 < x -> l * x <= r -> r <= h * x ->
  (1 / h) * (1 / x) <= 1 / r /\ 1 / r <= (1 / l) * (1 / x).
Proof.
  intros Hl Hx H1 H2.
  assert (Hlx : 0 < l * x) by (apply Qmult_lt_0_compat; assumption).
  assert (Hr : 0 < r) by lra.
  assert (Hhx : 0 < h * x) by lra.
  assert (Hh : 0 < h).
  { destruct (Qlt_le_dec 0 h) as [H|H]; [exact H|exfalso].
    assert (h * x <= 0 * x) by (apply Qmult_le_compat_r; lra). lra. }
  split.
  - setoid_replace (1 / h * (1 / x)) with (1 / (h * x)) by (field; split; lra).
    apply Qle_shift_div_l; [exact Hr|].
    setoid_replace (1 / (h * x) * r) with (r / (h * x)) by (field; split; lra).
    apply Qle_shift_div_r; [exact Hhx|]. lra.
  - setoid_replace (1 / l * (1 / x)) with (1 / (l * x)) by (field; split; lra).
    apply Qle_shift_div_l; [exact Hlx|].
    setoid_replace (1 / r * (l * x)) with ((l * x) / r) by (field; lra).
    apply Qle_shift_div_r; [exact Hr|]. lra.
Qed.

(** From a relative bound and the range of the exact value to a range. *)
Lemma rel_range (l h x r xl xh : Q) :
  0 <= l -> 0 <= h -> l * x <= r -> r <= h * x -> xl <= x -> x <= xh ->
  l * xl <= r /\ r <= h * xh.
Proof.
  intros Hl Hh H1 H2 H3 H4. split.
  - apply Qle_trans with (l * x); [|exact H1].
    rewrite !(Qmult_comm l). apply Qmult_le_compat_r; assumption.
  - apply Qle_trans with (h * x); [exact H2|].
    rewrite !(Qmult_comm h). apply Qmult_le_compat_r; assumption.
Qed.

Ltac qconst :=
  match goal with
  | |- (_ <= _)%Q => apply Qle_bool_iff; vm_compute; reflexivity
  | |- (_ < _)%Q => vm_compute; reflexivity
  end.

Lemma inv_range (x xl xh : Q) :
  0 < xl -> xl <= x -> x <= xh -> 1 / xh <= 1 / x /\ 1 / x <= 1 / xl.
Proof.
  intros Hl H1 H2.
  assert (Hx : 0 < x) by lra. assert (Hh : 0 < xh) by lra.
  split.
  - apply Qle_shift_div_l; [exact Hx|].
    setoid_replace (1 / xh * x) with (x / xh) by (field; lra).
    apply Qle_shift_div_r; [exact Hh|]. lra.
  - apply Qle_shift_div_l; [exact Hl|].
    setoid_replace (1 / x * xl) with (xl / x) by (field; lra).
    apply Qle_shift_div_r; [exact Hx|]. lra.
Qed.

(* ------------------------------------------------------------------ *)
(** ** RD7 *)

Module RD7_Facts.
Import RD7.

Lemma non_positive_fin (t : Q) : non_positive (Some (Fin t)) = true <-> t <= 0.
Proof. simpl. apply Qle_bool_iff. Qed.

(** A non-positive (zero or negative) [tau_s] gives the sentinel record with
    the single [tau_s] diagnostic, whatever the other two inputs are. *)
Lemma rd7_tau_non_positive (t : Q) (f0_hz Qfac : option pyfloat) :
  t <= 0 ->
  rd7_damping_linewidth (Some (Fin t)) f0_hz Qfac = sentinel w_tau f_tau.
Proof.
  intros H. unfold rd7_damping_linewidth.
  now rewrite (proj2 (non_positive_fin t) H).
Qed.

(** C1 as stated fails: a NaN [tau_s] is "not finite", yet it passes the
    three [<= 0] tests; the stage computes on, returns a numeric [df_Q]
    and reports no diagnostic at all. *)
Lemma rd7_nan_tau_not_sentinel :
  let r := rd7_damping_linewidth (Some NaN) (Some (Fin 1)) (Some (Fin 1)) in
  is_finite NaN = false /\
  is_nan (df_Q r) = false /\ warn r = [] /\ fix_ r = [].
Proof. vm_compute. repeat split. Qed.

(** With several violated preconditions only the first one is reported:
    the guards return one after the other. *)
Lemma rd7_reports_first_violation_only :
  rd7_damping_linewidth (Some (Fin 0)) (Some (Fin 0)) (Some (Fin 0)) =
    sentinel w_tau f_tau.
Proof. reflexivity. Qed.

(** C1 (amended): when one of the three inputs is [None] or compares
    [<= 0], the stage returns NaN for [alpha], [df_tau] and [df_Q] together
    with exactly one warning/fix pair, the one of the first violated
    precondition in the order tau, f0, Q. *)
Theorem rd7_violation_returns_sentinel (tau_s f0_hz Qfac : option pyfloat) :
  non_positive tau_s = true \/ non_positive f0_hz = true \/ non_positive Qfac = true ->
  let r := rd7_damping_linewidth tau_s f0_hz Qfac in
  alpha r = NaN /\ df_tau r = NaN /\ df_Q r = NaN /\
  (warn r, fix_ r) =
    (if non_positive tau_s then ([w_tau], [f_tau])
     else if non_positive f0_hz then ([w_f0], [f_f0])
     else ([w_Q], [f_Q])).
Proof.
  intros H r. subst r. unfold rd7_damping_linewidth.
  destruct (non_positive tau_s) eqn:Et; [repeat split|].
  destruct (non_positive f0_hz) eqn:Ef; [repeat split|].
  destruct (non_positive Qfac) eqn:Eq; [repeat split|].
  destruct H as [H|[H|H]]; discriminate.
Qed.

Lemma rd7_violation_returns_sentinel_witness :
  let r := rd7_damping_linewidth (Some (Fin 0)) (Some (Fin 5000000)) (Some (Fin 1570)) in
  alpha r = NaN /\ df_tau r = NaN /\ df_Q r = NaN /\
  (warn r, fix_ r) = ([w_tau], [f_tau]).
Proof.
  apply (rd7_violation_returns_sentinel (Some (Fin 0)) (Some (Fin 5000000))
           (Some (Fin 1570))).
  left. reflexivity.
Defined.

Lemma two_pi_exact :
  d_mul (Fin 2) (Fin np_pi) = Fin (884279719003555 # 140737488355328).
Proof. vm_compute. reflexivity. Qed.

(** C2 as stated fails on doubles.  With [tau = 1e-4] and [f0 = 5e6] the
    Q-based linewidth is not twice the tau-based one (they differ in the
    last place).  With [tau = f0 = 1e-162] the recombined
    [Q = pi * f0 * tau] underflows to the smallest positive double, the
    three guards pass, and the mismatch warning is not returned: the only
    warning is the one about a large [df_tau]. *)
Lemma rd7_recombined_Q_not_exact :
  (let t := b64 (1 # 10000) in
   let f := Fin 5000000 in
   let r := rd7_damping_linewidth (Some t) (Some f) (Some (Q_final f t)) in
   exists a b : Q, df_tau r = Fin a /\ df_Q r = Fin b /\ ~ b == 2 * a) /\
  (let t := b64 (1 / 10 ^ 162) in
   let r := rd7_damping_linewidth (Some t) (Some t) (Some (Q_final t t)) in
   Q_final t t = Fin (pow2 (-1074)) /\
   warn r = [w_large] /\ ~ In w_mismatch (warn r)).
Proof.
  split.
  - eexists. eexists. split; [vm_compute; reflexivity|].
    split; [vm_compute; reflexivity|]. vm_compute. discriminate.
  - assert (E : warn (rd7_damping_linewidth (Some (b64 (1 / 10 ^ 162)))
                        (Some (b64 (1 / 10 ^ 162)))
                        (Some (Q_final (b64 (1 / 10 ^ 162)) (b64 (1 / 10 ^ 162)))))
                = [w_large]) by (vm_compute; reflexivity).
    cbv zeta. split; [vm_compute; reflexivity|]. split; [exact E|].
    rewrite E. intros [H|[]]. discriminate H.
Qed.

(** C2 (amended): for [tau] and [f0] between [2^-500] and [2^500] and the
    driver's [Q = pi * f0 * tau], every operation rounded to double, the
    stage returns finite linewidths with [df_Q] equal to [2 * df_tau] up to
    the relative error [2^-50], and the mismatch warning and its fix are
    among the returned diagnostics. *)
Theorem rd7_recombined_Q_mismatch (t f : Q) :
  pow2 (-500) <= t -> t <= pow2 500 -> pow2 (-500) <= f -> f <= pow2 500 ->
  let r := rd7_damping_linewidth (Some (Fin t)) (Some (Fin f))
             (Some (Q_final (Fin f) (Fin t))) in
  exists a b : Q,
    df_tau r = Fin a /\ df_Q r = Fin b /\ 0 < a /\
    Qabs (b - 2 * a) <= pow2 (-50) * b /\
    In w_mismatch (warn r) /\ In f_mismatch (fix_ r).
Proof.
  intros Ht1 Ht2 Hf1 Hf2 r.
  set (L := pow2 (-500)) in *. set (U := pow2 500) in *.
  assert (HL : 0 < L) by apply pow2_pos.
  assert (Ht : 0 < t) by lra. assert (Hf : 0 < f) by lra.
  pose proof np_pi_pos as Hpi.
  set (tp := 884279719003555 # 140737488355328).
  assert (Htp : tp == 2 * np_pi) by reflexivity.
  (* Q_final: two rounded products *)
  assert (R0 : np_pi * L <= np_pi * f /\ np_pi * f <= np_pi * U).
  { apply rel_range with (x := f); lra. }
  destruct (b64_rel (np_pi * f)) as (P1 & E0 & P1l & P1h & P1pos).
  { apply Qle_trans with (np_pi * L); [qconst|apply R0]. }
  { apply Qle_trans with (np_pi * U); [apply R0|qconst]. }
  set (X := np_pi * f * t).
  assert (HX : 0 < X) by (unfold X; apply Qmult_lt_0_compat; [apply Qmult_lt_0_compat|]; assumption).
  destruct (rel_mul _ _ _ _ t Ht P1l P1h) as [X1l X1h]. fold X in X1l, X1h.
  assert (Hpf : 0 < np_pi * f) by (apply Qmult_lt_0_compat; assumption).
  assert (RX : np_pi * L * L <= X /\ X <= np_pi * U * U).
  { unfold X. split.
    - apply Qle_trans with (np_pi * f * L).
      + apply Qmult_le_compat_r; [apply R0|lra].
      + rewrite !(Qmult_comm (np_pi * f)). apply Qmult_le_compat_r; lra.
    - apply Qle_trans with (np_pi * f * U).
      + rewrite !(Qmult_comm (np_pi * f)). apply Qmult_le_compat_r; lra.
      + apply Qmult_le_compat_r; [apply R0|lra]. }
  destruct (rel_range (1 - eps64) (1 + eps64) _ _ _ _ ltac:(qconst) ltac:(qconst)
              X1l X1h (proj1 RX) (proj2 RX))
    as [X1lo X1hi].
  destruct (b64_rel (P1 * t)) as (Qv & E1 & Qvl0 & Qvh0 & Qvpos).
  { apply Qle_trans with ((1 - eps64) * (np_pi * L * L)); [qconst|exact X1lo]. }
  { apply Qle_trans with ((1 + eps64) * (np_pi * U * U)); [exact X1hi|qconst]. }
  destruct (rel_round _ _ _ _ _ X1l X1h Qvl0 Qvh0) as [Qvl Qvh].
  assert (EQ : Q_final (Fin f) (Fin t) = Fin Qv).
  { unfold Q_final. now rewrite d_mul_fin, E0, d_mul_fin, E1. }
  (* df_tau: a rounded product and a rounded quotient *)
  assert (R2 : tp * L <= tp * t /\ tp * t <= tp * U).
  { apply rel_range with (x := t); first [lra | qconst]. }
  destruct (b64_rel (tp * t)) as (D1 & E2 & D1l & D1h & D1pos).
  { apply Qle_trans with (tp * L); [qconst|apply R2]. }
  { apply Qle_trans with (tp * U); [apply R2|qconst]. }
  set (a0 := 1 / (tp * t)).
  assert (Htpt : 0 < tp * t) by (apply Qmult_lt_0_compat; [reflexivity|exact Ht]).
  assert (HtpL : 0 < tp * L) by (apply Qmult_lt_0_compat; [reflexivity|exact HL]).
  destruct (inv_range (tp * t) (tp * L) (tp * U) HtpL (proj1 R2) (proj2 R2)) as [a0lo a0hi].
  fold a0 in a0lo, a0hi.
  assert (Ha0 : 0 < a0).
  { apply Qlt_le_trans with (1 / (tp * U)); [qconst|exact a0lo]. }
  destruct (rel_inv (1 - eps64) (1 + eps64) (tp * t) D1 ltac:(qconst) Htpt D1l D1h)
    as [X3l X3h]. fold a0 in X3l, X3h.
  destruct (rel_range (1 / (1 + eps64)) (1 / (1 - eps64)) _ _ _ _ ltac:(qconst) ltac:(qconst)
              X3l X3h a0lo a0hi)
    as [X3lo X3hi].
  destruct (b64_rel (1 / D1)) as (A & E3 & Al0 & Ah0 & Apos).
  { apply Qle_trans with (1 / (1 + eps64) * (1 / (tp * U))); [qconst|exact X3lo]. }
  { apply Qle_trans with (1 / (1 - eps64) * (1 / (tp * L))); [exact X3hi|qconst]. }
  destruct (rel_round _ _ _ _ _ X3l X3h Al0 Ah0) as [Al1 Ah1].
  assert (Al : (1 - 3 * eps64) * a0 <= A).
  { apply Qle_trans with (1 / (1 + eps64) * (1 - eps64) * a0); [|exact Al1].
    apply Qmult_le_compat_r; [qconst|lra]. }
  assert (Ah : A <= (1 + 3 * eps64) * a0).
  { apply Qle_trans with (1 / (1 - eps64) * (1 + eps64) * a0); [exact Ah1|].
    apply Qmult_le_compat_r; [qconst|lra]. }
  (* df_Q: a rounded quotient *)
  destruct (rel_inv ((1 - eps64) * (1 - eps64)) ((1 + eps64) * (1 + eps64)) X Qv
              ltac:(qconst) HX Qvl Qvh) as [I4l I4h].
  destruct (rel_mul _ _ _ _ f Hf I4l I4h) as [X4l X4h].
  assert (Hb0 : 1 / X * f == 2 * a0).
  { unfold X, a0. rewrite Htp. field. repeat split; lra. }
  rewrite Hb0 in X4l, X4h.
  assert (X4eq : 1 / Qv * f == f / Qv) by (field; lra).
  rewrite X4eq in X4l, X4h.
  assert (R4 : 2 * (1 / (tp * U)) <= 2 * a0 /\ 2 * a0 <= 2 * (1 / (tp * L))) by (split; lra).
  destruct (rel_range (1 / ((1 + eps64) * (1 + eps64))) (1 / ((1 - eps64) * (1 - eps64)))
              _ _ _ _ ltac:(qconst) ltac:(qconst) X4l X4h (proj1 R4) (proj2 R4))
    as [X4lo X4hi].
  destruct (b64_rel (f / Qv)) as (B & E4 & Bl0 & Bh0 & Bpos).
  { eapply Qle_trans; [|exact X4lo]. qconst. }
  { eapply Qle_trans; [exact X4hi|]. qconst. }
  destruct (rel_round _ _ _ _ _ X4l X4h Bl0 Bh0) as [Bl1 Bh1].
  assert (Bl : (1 - 4 * eps64) * (2 * a0) <= B).
  { eapply Qle_trans; [|exact Bl1].
    apply Qmult_le_compat_r; [qconst|lra]. }
  assert (Bh : B <= (1 + 4 * eps64) * (2 * a0)).
  { eapply Qle_trans; [exact Bh1|].
    apply Qmult_le_compat_r; [qconst|lra]. }
  (* the mismatch: a rounded difference and a rounded quotient *)
  assert (HAB : (49 # 100) * B <= B - A /\ B - A <= B /\ A < B).
  { unfold eps64 in *. repeat split; lra. }
  assert (R5 : (49 # 50) * (1 / (tp * U)) <= B - A /\ B - A <= 3 * (1 / (tp * L))).
  { unfold eps64 in *. split; lra. }
  destruct (b64_err (A + - B)) as (d & E5 & Hd).
  { rewrite Qabs_neg by lra. eapply Qle_trans; [|apply (Qle_trans _ _ _ (proj1 R5))].
    - qconst.
    - lra. }
  { rewrite Qabs_neg by lra. apply Qle_trans with (B - A); [lra|].
    eapply Qle_trans; [apply R5|]. qconst. }
  rewrite (Qabs_neg (A + - B)) in Hd by lra.
  change (pow2 (-53)) with eps64 in Hd.
  apply Qabs_Qle_condition in Hd.
  assert (Hdneg : d < 0) by (unfold eps64 in *; lra).
  set (D := Qabs d).
  assert (HD : (1 - eps64) * (B - A) <= D /\ D <= (1 + eps64) * (B - A)).
  { unfold D. rewrite Qabs_neg by lra. unfold eps64 in *. split; lra. }
  assert (R6 : (48 # 100) <= D / B /\ D / B <= 2).
  { split.
    - apply Qle_shift_div_l; [exact Bpos|]. unfold eps64 in *. lra.
    - apply Qle_shift_div_r; [exact Bpos|]. unfold eps64 in *. lra. }
  destruct (b64_rel (D / B)) as (rho & E6 & rl & rh & rpos).
  { apply Qle_trans with (48 # 100); [qconst|apply R6]. }
  { apply Qle_trans with 2; [apply R6|qconst]. }
  assert (Hrho : Qltb lit_0_3 rho = true).
  { apply Qltb_lt. unfold lit_0_3, eps64 in *. lra. }
  (* the run *)
  assert (Hr : df_tau r = Fin A /\ df_Q r = Fin B /\
               In w_mismatch (warn r) /\ In f_mismatch (fix_ r)).
  { subst r. rewrite EQ. unfold rd7_damping_linewidth.
    cbn [non_positive fl_leb get].
    rewrite (proj2 (Qle_bool_gt t 0) Ht), (proj2 (Qle_bool_gt f 0) Hf),
      (proj2 (Qle_bool_gt Qv 0) Qvpos).
    cbv beta iota zeta.
    rewrite two_pi_exact. fold tp.
    rewrite (d_mul_fin tp t), E2.
    rewrite (d_div_fin 1 D1) by lra. rewrite E3.
    rewrite (d_div_fin f Qv) by lra. rewrite E4.
    unfold mismatch. rewrite d_sub_fin, E5.
    unfold py_max, fl_gtb. cbn [fl_abs fl_ltb].
    rewrite (proj2 (Qltb_lt A B)) by apply HAB.
    fold D. rewrite (d_div_fin D B) by lra. rewrite E6.
    cbn [fl_ltb]. rewrite Hrho.
    cbn [df_tau df_Q warn fix_].
    split; [reflexivity|]. split; [reflexivity|].
    rewrite !map_app. cbn [map fst snd].
    split; apply in_or_app; right; apply in_or_app; right; now left. }
  destruct Hr as (H1 & H2 & H3 & H4).
  exists A, B. repeat split; try assumption.
  apply Qabs_Qle_condition.
  change (pow2 (-50)) with (1 # 1125899906842624). unfold eps64 in *. split; lra.
Qed.


Lemma rd7_recombined_Q_mismatch_witness :
  let r := rd7_damping_linewidth
             (Some (Fin (7378697629483821 # 73786976294838206464)))
             (Some (Fin 5000000))
             (Some (Q_final (Fin 5000000)
                      (Fin (7378697629483821 # 73786976294838206464)))) in
  exists a b : Q,
    df_tau r = Fin a /\ df_Q r = Fin b /\ 0 < a /\
    Qabs (b - 2 * a) <= pow2 (-50) * b /\
    In w_mismatch (warn r) /\ In f_mismatch (fix_ r).
Proof.
  apply (rd7_recombined_Q_mismatch (7378697629483821 # 73786976294838206464) 5000000);
    qconst.
Defined.

End RD7_Facts.

(* ------------------------------------------------------------------ *)
(** ** RD6 *)

Module RD6_Facts.
Import RD6.

Lemma fl_neb_self (x : pyfloat) : fl_neb x x = is_nan x.
Proof.
  destruct x; simpl; try reflexivity.
  now rewrite (proj2 (Qeq_bool_iff q q) (Qeq_refl q)).
Qed.

Lemma fl_gtb_not_leb (x y : pyfloat) : fl_gtb x y = true -> fl_leb x y = false.
Proof.
  unfold fl_gtb. destruct x, y; simpl; try discriminate; try reflexivity.
  unfold Qltb. now rewrite negb_true_iff.
Qed.

(** C5 as stated fails: a non-positive [f0] is not refused.  With
    [f0 = -1], [tau = 1], [Q = 1] and no file yet, the call creates the
    file with a header and one record (and only warns about the range). *)
Lemma rd6_non_positive_f0_is_saved :
  fl_leb (Fin (-1)) (Fin 0) = true /\
  rd6_save_results "2026-01-01T00:00:00" (Some (Fin (-1))) (Fin 1) (Fin 1) (Fin 0)
      None None None None [] =
    ([F0OutOfRange; LowQ],
     Some [header [];
           record "2026-01-01T00:00:00" (Fin (-1)) (Fin 1) (Fin 1) (Fin 0)
             None None None []]).
Proof. split; reflexivity. Qed.

(** C5 (amended): the call leaves the CSV store untouched when [f0] is
    [None] or NaN, or [tau <= 0], or [Q <= 0]; when [f0] is a number (of any
    sign), [tau > 0] and [Q > 0], exactly one record is appended, preceded by
    the header if and only if the file did not exist. *)
Theorem rd6_refuses_or_appends (timestamp : string) (f0_hz : option pyfloat)
    (tau_s Qfac rmse : pyfloat) (alpha df_tau df_Q : option pyfloat)
    (file : csv_file) (extras : list (string * cell)) :
  let out := snd (rd6_save_results timestamp f0_hz tau_s Qfac rmse
                    alpha df_tau df_Q file extras) in
  ((f0_hz = None \/ f0_hz = Some NaN \/
    fl_leb tau_s (Fin 0) = true \/ fl_leb Qfac (Fin 0) = true) ->
   out = file) /\
  (forall f0, f0_hz = Some f0 -> is_nan f0 = false ->
     fl_gtb tau_s (Fin 0) = true -> fl_gtb Qfac (Fin 0) = true ->
     let r := record timestamp f0 tau_s Qfac rmse alpha df_tau df_Q extras in
     out = match file with
           | None => Some [header extras; r]
           | Some rows => Some (rows ++ [r])%list
           end).
Proof.
  intros out. subst out. unfold rd6_save_results. split.
  - intros H. destruct f0_hz as [f0|]; [|reflexivity].
    rewrite fl_neb_self.
    destruct (is_nan f0) eqn:En; [reflexivity|].
    destruct (fl_leb tau_s (Fin 0)) eqn:Et; [reflexivity|].
    destruct (fl_leb Qfac (Fin 0)) eqn:Eq; [reflexivity|].
    destruct H as [H|[H|[H|H]]]; try discriminate.
    injection H as ->. discriminate.
  - intros f0 -> Hn Ht Hq.
    rewrite fl_neb_self, Hn, (fl_gtb_not_leb _ _ Ht), (fl_gtb_not_leb _ _ Hq).
    cbn [snd]. unfold append_row. destruct file; reflexivity.
Qed.

Lemma rd6_refuses_or_appends_witness :
  snd (rd6_save_results "2026-01-01T00:00:00" (Some NaN) (Fin 1) (Fin 1) (Fin 0)
         None None None (Some [header []]) []) = Some [header []] /\
  snd (rd6_save_results "2026-01-01T00:00:00" (Some (Fin 5000000)) (Fin (1 # 10000))
         (Fin 1570) (Fin 0) None None None (Some [header []]) []) =
    Some [header [];
          record "2026-01-01T00:00:00" (Fin 5000000) (Fin (1 # 10000)) (Fin 1570)
            (Fin 0) None None None []].
Proof.
  split.
  - apply (rd6_refuses_or_appends "2026-01-01T00:00:00" (Some NaN)).
    right. left. reflexivity.
  - apply (rd6_refuses_or_appends "2026-01-01T00:00:00" (Some (Fin 5000000))
             (Fin (1 # 10000)) (Fin 1570) (Fin 0) None None None
             (Some [header []]) []); reflexivity.
Defined.

End RD6_Facts.

(* ------------------------------------------------------------------ *)
(** ** RD5 *)

Module RD5_Facts.
Import RD5.

Lemma np_diff_length (l : list pyfloat) :
  List.length (np_diff l) = (List.length l - 1)%nat.
Proof.
  induction l as [|a [|b r] IH]; try reflexivity.
  change (np_diff (a :: b :: r)) with (fl_sub b a :: np_diff (b :: r)).
  cbn [List.length] in *. rewrite IH. lia.
Qed.

(** The indices reported by [sign_changes] are exactly the positions where
    the sign bit differs from the next sample's. *)
Lemma sign_changes_spec (x : list Q) (k0 i : nat) :
  In i (sign_changes k0 x) <->
  (k0 <= i)%nat /\ (S (i - k0) < List.length x)%nat /\
  signbit (nth (i - k0) x 0) <> signbit (nth (S (i - k0)) x 0).
Proof.
  revert k0. induction x as [|a r IH]; intros k0.
  - simpl. split; [tauto|]. intros (_ & H & _). lia.
  - destruct r as [|b r'].
    + simpl. split; [tauto|]. intros (_ & H & _). lia.
    + change (sign_changes k0 (a :: b :: r')) with
        (if xorb (signbit a) (signbit b) then k0 :: sign_changes (S k0) (b :: r')
         else sign_changes (S k0) (b :: r')).
      specialize (IH (S k0)).
      assert (Hshift : forall j, (S k0 <= j)%nat ->
                (j - k0 = S (j - S k0))%nat) by (intros; lia).
      destruct (xorb (signbit a) (signbit b)) eqn:E.
      * split.
        -- intros [<-|Hin].
           ++ rewrite Nat.sub_diag. cbn [nth List.length]. repeat split; try lia.
              intros Heq. rewrite Heq, xorb_nilpotent in E. discriminate.
           ++ apply IH in Hin. destruct Hin as (H1 & H2 & H3).
              rewrite (Hshift i H1). cbn [nth List.length] in *.
              repeat split; try lia. exact H3.
        -- intros (H1 & H2 & H3).
           destruct (Nat.eq_dec k0 i) as [->|Hne]; [now left|right].
           apply IH. assert (H1' : (S k0 <= i)%nat) by lia.
           rewrite (Hshift i H1') in H2, H3. cbn [nth List.length] in *.
           repeat split; try lia. exact H3.
      * split.
        -- intros Hin. apply IH in Hin. destruct Hin as (H1 & H2 & H3).
           rewrite (Hshift i H1). cbn [nth List.length] in *.
           repeat split; try lia. exact H3.
        -- intros (H1 & H2 & H3).
           destruct (Nat.eq_dec k0 i) as [->|Hne].
           ++ rewrite Nat.sub_diag in H3. cbn [nth] in H3.
              destruct (signbit a), (signbit b); simpl in E;
                try discriminate; contradiction.
           ++ apply IH. assert (H1' : (S k0 <= i)%nat) by lia.
              rewrite (Hshift i H1') in H2, H3. cbn [nth List.length] in *.
              repeat split; try lia. exact H3.
Qed.

(** C6: with fewer than [min_crossings] sign changes, or with fewer than
    two intervals between the crossing times, the estimator returns NaN and
    zero cycles. *)
Theorem rd5_too_few_crossings_sentinel (x1_relax : list Q) (fs : Q) (min_crossings : Z) :
  let idx := sign_changes 0 x1_relax in
  (Z.of_nat (List.length idx) < min_crossings)%Z \/
  (List.length (np_diff (map (crossing_time x1_relax fs) idx)) < 2)%nat ->
  snd (rd5_freq_from_relax x1_relax fs min_crossings) = (NaN, 0%Z).
Proof.
  intros idx H. unfold rd5_freq_from_relax. fold idx.
  destruct (Z.of_nat (List.length idx) <? min_crossings)%Z eqn:E1; [reflexivity|].
  destruct (List.length (np_diff (map (crossing_time x1_relax fs) idx)) <? 2)%nat eqn:E2;
    [reflexivity|].
  apply Z.ltb_ge in E1. apply Nat.ltb_ge in E2.
  destruct H; lia.
Qed.

Lemma rd5_too_few_crossings_sentinel_witness :
  snd (rd5_freq_from_relax [1; -1; 1; -1; 1] 8 6) = (NaN, 0%Z).
Proof.
  apply (rd5_too_few_crossings_sentinel [1; -1; 1; -1; 1] 8 6).
  left. vm_compute. reflexivity.
Defined.

(** Conversely a frequency is only computed from at least three crossings,
    and then at least three cycles are reported. *)
Lemma rd5_numeric_needs_crossings (x1_relax : list Q) (fs : Q) (min_crossings : Z)
    (f0 : pyfloat) (n : Z) :
  snd (rd5_freq_from_relax x1_relax fs min_crossings) = (f0, n) ->
  n <> 0%Z ->
  (min_crossings <= Z.of_nat (List.length (sign_changes 0 x1_relax)))%Z /\
  (3 <= List.length (sign_changes 0 x1_relax))%nat /\ (3 <= n)%Z.
Proof.
  unfold rd5_freq_from_relax.
  destruct (Z.of_nat _ <? min_crossings)%Z eqn:E1.
  { cbn [snd]. intros [= <- <-] Hn. contradiction. }
  destruct (List.length _ <? 2)%nat eqn:E2.
  { cbn [snd]. intros [= <- <-] Hn. contradiction. }
  cbn [snd]. intros [= <- <-] _.
  apply Z.ltb_ge in E1. apply Nat.ltb_ge in E2.
  rewrite np_diff_length, length_map in *. lia.
Qed.

End RD5_Facts.

(* ------------------------------------------------------------------ *)
(** ** Finite sums *)

Lemma Qsum_app (l1 l2 : list Q) : Qsum (l1 ++ l2) == Qsum l1 + Qsum l2.
Proof.
  induction l1 as [|x l1 IH]; simpl.
  - ring.
  - rewrite IH. ring.
Qed.

Lemma Qsum_upto_S (f : nat -> Q) (n : nat) :
  Qsum_upto f (S n) == Qsum_upto f n + f n.
Proof.
  unfold Qsum_upto. rewrite seq_S, map_app, Qsum_app. simpl. ring.
Qed.

Lemma Qsum_upto_ext (f g : nat -> Q) (n : nat) :
  (forall k, (k < n)%nat -> f k == g k) -> Qsum_upto f n == Qsum_upto g n.
Proof.
  induction n as [|n IH]; intros H.
  - reflexivity.
  - rewrite !Qsum_upto_S, IH, (H n) by (intros; try apply H; lia). reflexivity.
Qed.

Lemma Qsum_upto_le (f g : nat -> Q) (n : nat) :
  (forall k, (k < n)%nat -> f k <= g k) -> Qsum_upto f n <= Qsum_upto g n.
Proof.
  induction n as [|n IH]; intros H.
  - apply Qle_refl.
  - rewrite !Qsum_upto_S. apply Qplus_le_compat.
    + apply IH. intros; apply H; lia.
    + apply H; lia.
Qed.

Lemma Qsum_upto_zero (n : nat) : Qsum_upto (fun _ => 0) n == 0.
Proof.
  induction n as [|n IH]; [reflexivity|]. rewrite Qsum_upto_S, IH. ring.
Qed.

Lemma Qsum_upto_nonneg (f : nat -> Q) (n : nat) :
  (forall k, (k < n)%nat -> 0 <= f k) -> 0 <= Qsum_upto f n.
Proof.
  intros H. rewrite <- (Qsum_upto_zero n). now apply Qsum_upto_le.
Qed.

Lemma Qsum_upto_scale (c : Q) (f : nat -> Q) (n : nat) :
  Qsum_upto (fun k => c * f k) n == c * Qsum_upto f n.
Proof.
  induction n as [|n IH].
  - unfold Qsum_upto. simpl. ring.
  - rewrite !Qsum_upto_S, IH. ring.
Qed.

Lemma Qsum_upto_plus (f g : nat -> Q) (n : nat) :
  Qsum_upto (fun k => f k + g k) n == Qsum_upto f n + Qsum_upto g n.
Proof.
  induction n as [|n IH].
  - unfold Qsum_upto. simpl. ring.
  - rewrite !Qsum_upto_S, IH. ring.
Qed.

Lemma Qsum_upto_const (c : Q) (n : nat) :
  Qsum_upto (fun _ => c) n == inject_Z (Z.of_nat n) * c.
Proof.
  induction n as [|n IH].
  - unfold Qsum_upto. simpl. ring.
  - rewrite Qsum_upto_S, IH, Nat2Z.inj_succ. unfold Z.succ.
    rewrite inject_Z_plus. ring.
Qed.

(** Exchange of two finite sums. *)
Lemma Qsum_upto_swap (f : nat -> nat -> Q) (n m : nat) :
  Qsum_upto (fun i => Qsum_upto (fun k => f i k) m) n ==
  Qsum_upto (fun k => Qsum_upto (fun i => f i k) n) m.
Proof.
  induction n as [|n IH].
  - unfold Qsum_upto at 1. simpl. symmetry.
    rewrite (Qsum_upto_ext _ (fun _ => 0)); [apply Qsum_upto_zero|].
    intros; reflexivity.
  - rewrite Qsum_upto_S, IH, <- Qsum_upto_plus.
    apply Qsum_upto_ext. intros k _. now rewrite Qsum_upto_S.
Qed.

Lemma Qsqr_nonneg_aux (x : Q) : 0 <= x * x.
Proof. nra. Qed.

(** Cauchy-Schwarz against the constant sequence: the square of a sum of
    [m] terms is at most [m] times the sum of the squares. *)
Lemma Qsum_upto_cross (f : nat -> Q) (u : Q) (m : nat) :
  2 * Qsum_upto f m * u <=
  Qsum_upto (fun k => Qsqr (f k)) m + inject_Z (Z.of_nat m) * Qsqr u.
Proof.
  unfold Qsqr. induction m as [|m IH].
  - unfold Qsum_upto. simpl. setoid_replace (2 * 0 * u) with 0 by ring.
    setoid_replace (0 + inject_Z 0 * (u * u)) with 0 by ring. apply Qle_refl.
  - rewrite !Qsum_upto_S, Nat2Z.inj_succ. unfold Z.succ. rewrite inject_Z_plus.
    change (inject_Z 1) with 1.
    generalize dependent (Qsum_upto f m).
    generalize (Qsum_upto (fun k => f k * f k) m).
    generalize (inject_Z (Z.of_nat m)). generalize (f m).
    intros x M T S IH.
    assert (H : 0 <= (x - u) * (x - u)) by apply Qsqr_nonneg_aux.
    nra.
Qed.

Lemma Qsum_upto_sqr_le (f : nat -> Q) (m : nat) :
  Qsqr (Qsum_upto f m) <= inject_Z (Z.of_nat m) * Qsum_upto (fun k => Qsqr (f k)) m.
Proof.
  induction m as [|m IH].
  - vm_compute. discriminate.
  - pose proof (Qsum_upto_cross f (f m) m) as Hc.
    unfold Qsqr in *.
    rewrite !Qsum_upto_S, Nat2Z.inj_succ. unfold Z.succ. rewrite inject_Z_plus.
    change (inject_Z 1) with 1.
    generalize dependent (Qsum_upto f m).
    generalize (Qsum_upto (fun k => f k * f k) m).
    generalize (inject_Z (Z.of_nat m)). generalize (f m).
    intros x M T S IH Hc. nra.
Qed.

(** ** Zero-padded arrays *)

Lemma padded_nil (j : Z) : padded [] j = 0.
Proof.
  unfold padded. destruct (j <? 0)%Z; [reflexivity|].
  now destruct (Z.to_nat j).
Qed.

Lemma padded_cons (x : Q) (r : list Q) (j : Z) :
  padded (x :: r) j = if (j =? 0)%Z then x else padded r (j - 1).
Proof.
  unfold padded.
  destruct (j <? 0)%Z eqn:E1.
  - apply Z.ltb_lt in E1.
    assert (E2 : (j =? 0)%Z = false) by (apply Z.eqb_neq; lia).
    assert (E3 : (j - 1 <? 0)%Z = true) by (apply Z.ltb_lt; lia).
    now rewrite E2, E3.
  - apply Z.ltb_ge in E1.
    destruct (j =? 0)%Z eqn:E2.
    + apply Z.eqb_eq in E2. now subst j.
    + apply Z.eqb_neq in E2.
      assert (E3 : (j - 1 <? 0)%Z = false) by (apply Z.ltb_ge; lia).
      rewrite E3.
      replace (Z.to_nat j) with (S (Z.to_nat (j - 1))) by lia.
      reflexivity.
Qed.

Lemma padded_nat (a : list Q) (n k : nat) :
  (if (k <=? n)%nat then nth (n - k) a 0 else 0) =
  padded a (Z.of_nat n - Z.of_nat k).
Proof.
  unfold padded.
  destruct (k <=? n)%nat eqn:E.
  - apply Nat.leb_le in E.
    assert (E2 : (Z.of_nat n - Z.of_nat k <? 0)%Z = false) by (apply Z.ltb_ge; lia).
    rewrite E2. f_equal. lia.
  - apply Nat.leb_gt in E.
    assert (E2 : (Z.of_nat n - Z.of_nat k <? 0)%Z = true) by (apply Z.ltb_lt; lia).
    now rewrite E2.
Qed.

Lemma padded_abs_nonneg (x : list Q) (j : Z) : 0 <= padded (map Qabs x) j.
Proof.
  unfold padded. destruct (j <? 0)%Z; [apply Qle_refl|].
  destruct (Nat.lt_ge_cases (Z.to_nat j) (List.length (map Qabs x))) as [H|H].
  - rewrite (nth_indep _ 0 (Qabs 0)) by exact H.
    rewrite map_nth. apply Qabs_nonneg.
  - rewrite nth_overflow by exact H. apply Qle_refl.
Qed.

(** A window of [L] consecutive positions meets position 0 at most once. *)
Lemma Qsum_upto_delta (v : Q) (s : Z) (L : nat) :
  Qsum_upto (fun i => if (s + Z.of_nat i =? 0)%Z then v else 0) L ==
  if ((s <=? 0) && (0 <? s + Z.of_nat L))%Z then v else 0.
Proof.
  induction L as [|L IH].
  - unfold Qsum_upto. simpl.
    destruct (s <=? 0)%Z eqn:E1; destruct (0 <? s + 0)%Z eqn:E2; simpl;
      try reflexivity.
    apply Z.leb_le in E1. apply Z.ltb_lt in E2. lia.
  - rewrite Qsum_upto_S, IH.
    destruct (Z.leb_spec s 0); destruct (Z.ltb_spec 0 (s + Z.of_nat L));
      destruct (Z.eqb_spec (s + Z.of_nat L) 0);
      destruct (Z.ltb_spec 0 (s + Z.of_nat (S L))); simpl;
      try lia; ring.
Qed.

(** The energy seen through any window of the zero-padded array is at most
    the energy of the array. *)
Lemma shifted_energy_le (a : list Q) (s : Z) (L : nat) :
  Qsum_upto (fun i => Qsqr (padded a (s + Z.of_nat i))) L <= Qsum (map Qsqr a).
Proof.
  revert s. induction a as [|x r IH]; intros s.
  - rewrite (Qsum_upto_ext _ (fun _ => 0)).
    + rewrite Qsum_upto_zero. apply Qle_refl.
    + intros k _. rewrite padded_nil. reflexivity.
  - rewrite (Qsum_upto_ext _
      (fun i => (if (s + Z.of_nat i =? 0)%Z then Qsqr x else 0) +
                Qsqr (padded r (s - 1 + Z.of_nat i)))).
    + rewrite Qsum_upto_plus. cbn [map Qsum].
      apply Qplus_le_compat; [|apply IH].
      rewrite Qsum_upto_delta.
      destruct ((s <=? 0) && (0 <? s + Z.of_nat L))%Z%bool.
      * apply Qle_refl.
      * apply Qsqr_nonneg_aux.
    + intros k _. rewrite padded_cons.
      destruct (s + Z.of_nat k =? 0)%Z eqn:E.
      * apply Z.eqb_eq in E.
        replace (s - 1 + Z.of_nat k)%Z with (-1)%Z by lia.
        unfold padded at 1. simpl. unfold Qsqr. ring.
      * replace (s + Z.of_nat k - 1)%Z with (s - 1 + Z.of_nat k)%Z by lia. ring.
Qed.

Lemma Qsum_sqr_nonneg (a : list Q) : 0 <= Qsum (map Qsqr a).
Proof.
  induction a as [|x r IH]; simpl.
  - apply Qle_refl.
  - pose proof (Qsqr_nonneg_aux x). unfold Qsqr at 1. lra.
Qed.

(* ------------------------------------------------------------------ *)
(** ** RD3 *)

Module RD3_Facts.
Import RD3.

Lemma py_int_inject_Z (z : Z) : py_int (inject_Z z) = z.
Proof. unfold py_int. simpl. apply Z.quot_1_r. Qed.

(** The window is [max(5, floor(spp / 2))] for the double [spp] that the
    quotient [fs / f0] rounds to. *)
Lemma window_eq (fs f0 spp : Q) :
  d_div (Fin fs) (Fin f0) = Fin spp ->
  window fs f0 = Z.max 5 (Qfloor (spp / 2)).
Proof.
  intros E. unfold window. rewrite E. set (z := Qfloor (spp / 2)).
  destruct (Qltb 5 (inject_Z z)) eqn:E5.
  - apply Qltb_lt in E5. change 5 with (inject_Z 5) in E5. rewrite <- Zlt_Qlt in E5.
    rewrite py_int_inject_Z. lia.
  - apply Qltb_ge in E5. change 5 with (inject_Z 5) in E5. rewrite <- Zle_Qle in E5.
    change (py_int 5) with 5%Z. lia.
Qed.

Lemma window_ge_5 (fs f0 : Q) : (5 <= window fs f0)%Z.
Proof.
  destruct (d_div (Fin fs) (Fin f0)) as [spp| | |] eqn:E;
    try (unfold window; rewrite E; lia).
  rewrite (window_eq fs f0 spp E). lia.
Qed.

Lemma kernel_length (M : Z) : List.length (kernel M) = Z.to_nat M.
Proof. apply repeat_length. Qed.

Lemma np_convolve_same_ok (a v : list Q) :
  a <> [] -> v <> [] ->
  np_convolve_same a v =
    Ok (map (fun i => conv_full a v
                        (i + (Nat.min (List.length a) (List.length v) - 1) / 2))
            (seq 0 (Nat.max (List.length a) (List.length v)))).
Proof.
  intros Ha Hv. destruct a; [contradiction|]. destruct v; [contradiction|].
  reflexivity.
Qed.

(** Convolving with the uniform kernel is taking the mean over a window of
    the zero-padded array. *)
Lemma conv_kernel (a : list Q) (M : Z) (n : nat) :
  (0 < M)%Z ->
  conv_full a (kernel M) n == window_mean a (Z.to_nat M) n.
Proof.
  intros HM. unfold conv_full, window_mean. rewrite kernel_length.
  rewrite (Qsum_upto_ext _
    (fun k => (1 / inject_Z M) * padded a (Z.of_nat n - Z.of_nat k))).
  - rewrite Qsum_upto_scale, Z2Nat.id by lia.
    field. change 0 with (inject_Z 0). rewrite inject_Z_injective. lia.
  - intros k Hk. unfold kernel. rewrite (nth_repeat_lt _ _ Hk), padded_nat.
    reflexivity.
Qed.

(** On a non-empty signal and a non-zero [f0] the stage returns the central
    part of the convolution of [|x|] with the uniform kernel. *)
Lemma rd3_envelope_ok (x1_relax : list Q) (fs f0 : Q) :
  x1_relax <> [] -> ~ f0 == 0 ->
  let M := Z.to_nat (window fs f0) in
  let N := List.length x1_relax in
  snd (rd3_envelope x1_relax fs f0) =
    Ok (map (fun i => conv_full (map Qabs x1_relax) (kernel (window fs f0))
                        (i + (Nat.min N M - 1) / 2))
            (seq 0 (Nat.max N M))).
Proof.
  intros Hx Hf M N. unfold rd3_envelope.
  rewrite (Qeq_bool_false _ _ Hf). cbn [snd].
  rewrite np_convolve_same_ok.
  - now rewrite kernel_length, length_map.
  - intros E. apply map_eq_nil in E. contradiction.
  - intros E. apply (f_equal (@List.length Q)) in E.
    rewrite kernel_length in E. pose proof (window_ge_5 fs f0). simpl in E. lia.
Qed.

(** C10: the window is never smaller than 5, so the "window very small"
    warning is never printed. *)
Theorem rd3_window_small_unreachable (x1_relax : list Q) (fs f0 : Q) :
  ~ f0 == 0 ->
  (5 <= window fs f0)%Z /\
  ~ In WindowTooSmall (fst (rd3_envelope x1_relax fs f0)).
Proof.
  intros Hf. split; [apply window_ge_5|].
  unfold rd3_envelope. rewrite (Qeq_bool_false _ _ Hf). cbn [fst].
  assert (E : (window fs f0 <? 5)%Z = false).
  { apply Z.ltb_ge. apply window_ge_5. }
  rewrite E. intros Hin.
  apply in_app_or in Hin. destruct Hin as [Hin|Hin].
  - destruct (std_ltb _ _); simpl in Hin; [destruct Hin as [Hin|[]]|destruct Hin].
    discriminate Hin.
  - simpl in Hin.
    destruct (_ <? window fs f0)%Z; simpl in Hin; [destruct Hin as [Hin|[]]|destruct Hin].
    discriminate Hin.
Qed.

Lemma rd3_window_small_unreachable_witness :
  (5 <= window 125000000 4995000)%Z /\
  ~ In WindowTooSmall (fst (rd3_envelope [1; -1; 1 # 2] 125000000 4995000)).
Proof.
  apply (rd3_window_small_unreachable [1; -1; 1 # 2] 125000000 4995000).
  intros H. discriminate H.
Defined.

(** C8 as stated fails: a signal shorter than the window gives an envelope
    as long as the window, not as long as the signal.  The conditioned
    signal [1, -1] (mean 0, peak 1) with [fs = f0 = 1] has the window 5 and
    an envelope of 5 samples. *)
Lemma rd3_short_input_longer_envelope :
  exists env, snd (rd3_envelope [1; -1] 1 1) = Ok env /\
              List.length env = 5%nat /\ List.length env <> List.length [1; -1].
Proof.
  eexists. split; [vm_compute; reflexivity|]. split; [reflexivity|].
  simpl. lia.
Qed.

(** C8 (amended): the envelope has length [max(len(x1), M)], the length of
    the input whenever the input is at least as long as the window; every
    element is non-negative; and element [n] is the mean of the [M] samples
    of the zero-padded [|x1|] that end at position [n + off], with
    [M = max(5, floor(spp / 2))] for the finite double [spp] that [fs / f0]
    rounds to, and [off = (min(len(x1), M) - 1) // 2]. *)
Theorem rd3_envelope_moving_average (x1_relax : list Q) (fs f0 spp : Q) :
  x1_relax <> [] -> 0 < fs -> 0 < f0 -> b64 (fs / f0) = Fin spp ->
  let M := Z.to_nat (Z.max 5 (Qfloor (spp / 2))) in
  let N := List.length x1_relax in
  let off := ((Nat.min N M - 1) / 2)%nat in
  exists env,
    snd (rd3_envelope x1_relax fs f0) = Ok env /\
    List.length env = Nat.max N M /\
    ((M <= N)%nat -> List.length env = N) /\
    (forall e, In e env -> 0 <= e) /\
    (forall n, (n < List.length env)%nat ->
       nth n env 0 == window_mean (map Qabs x1_relax) M (n + off)).
Proof.
  intros Hx Hfs Hf Hspp M N off.
  assert (Hf0 : ~ f0 == 0) by lra.
  assert (Hdiv : d_div (Fin fs) (Fin f0) = Fin spp)
    by (rewrite (d_div_fin fs f0 Hf0); exact Hspp).
  pose proof (rd3_envelope_ok x1_relax fs f0 Hx Hf0) as Hok.
  pose proof (window_ge_5 fs f0) as H5.
  cbv zeta in Hok. rewrite (window_eq fs f0 spp Hdiv) in Hok, H5. fold M N off in Hok.
  set (W := Z.max 5 (Qfloor (spp / 2))) in *.
  assert (HW : (0 < W)%Z) by lia.
  assert (Hmean : forall i,
            conv_full (map Qabs x1_relax) (kernel W) (i + off) ==
            window_mean (map Qabs x1_relax) M (i + off)).
  { intros i. apply conv_kernel. exact HW. }
  eexists. split; [exact Hok|].
  rewrite length_map, length_seq.
  split; [reflexivity|]. split; [lia|]. split.
  - intros e Hin. apply in_map_iff in Hin. destruct Hin as (i & <- & _).
    rewrite Hmean. unfold window_mean.
    apply Qle_shift_div_l.
    + change 0 with (inject_Z 0). rewrite <- Zlt_Qlt. subst M. lia.
    + rewrite Qmult_0_l. apply Qsum_upto_nonneg. intros k _.
      apply padded_abs_nonneg.
  - intros n Hn.
    rewrite (nth_indep _ 0
               (conv_full (map Qabs x1_relax) (kernel W) (0 + off)))
      by now rewrite length_map, length_seq.
    rewrite (map_nth (fun i => conv_full (map Qabs x1_relax) (kernel W) (i + off))
               (seq 0 (Nat.max N M)) 0%nat n).
    rewrite seq_nth by exact Hn. apply Hmean.
Qed.

Lemma rd3_envelope_moving_average_witness :
  exists env,
    snd (rd3_envelope [1; -2; 3; -4; 5; -6; 7; -8] 24 1) = Ok env /\
    List.length env = 12%nat /\
    ((12 <= 8)%nat -> List.length env = 8%nat) /\
    (forall e, In e env -> 0 <= e) /\
    (forall n, (n < List.length env)%nat ->
       nth n env 0 == window_mean (map Qabs [1; -2; 3; -4; 5; -6; 7; -8]) 12 (n + 3)).
Proof.
  apply (rd3_envelope_moving_average [1; -2; 3; -4; 5; -6; 7; -8] 24 1 24).
  - discriminate.
  - reflexivity.
  - reflexivity.
  - vm_compute. reflexivity.
Defined.

(** ** Smoothing and the second moment *)

Lemma Qdiv_le_mono_den (T n l : Q) :
  0 <= T -> 0 < n -> n <= l -> T / l <= T / n.
Proof.
  intros HT Hn Hl.
  apply Qle_shift_div_r; [lra|].
  assert (Hq : T / n * n == T) by (field; lra).
  assert (Hq0 : 0 <= T / n).
  { apply Qle_shift_div_l; [exact Hn|]. lra. }
  generalize dependent (T / n). intros q Hq Hq0. nra.
Qed.

(** One sample of a window mean: its square is at most the mean of the
    squares over the window. *)
Lemma window_mean_sqr_le (a : list Q) (m hi : nat) :
  (0 < m)%nat ->
  Qsqr (window_mean a m hi) <=
  (1 / inject_Z (Z.of_nat m)) *
  Qsum_upto (fun k => Qsqr (padded a (Z.of_nat hi - Z.of_nat k))) m.
Proof.
  intros Hm. unfold window_mean.
  pose proof (Qsum_upto_sqr_le (fun k => padded a (Z.of_nat hi - Z.of_nat k)) m) as Hc.
  cbv beta in Hc.
  assert (Hpos : 0 < inject_Z (Z.of_nat m)).
  { change 0 with (inject_Z 0). rewrite <- Zlt_Qlt. lia. }
  generalize dependent (Qsum_upto (fun k => Qsqr (padded a (Z.of_nat hi - Z.of_nat k))) m).
  generalize (Qsum_upto (fun k => padded a (Z.of_nat hi - Z.of_nat k)) m).
  generalize dependent (inject_Z (Z.of_nat m)).
  intros c Hpos S T Hc. unfold Qsqr in *.
  assert (E1 : S / c * (S / c) == (S * S) / (c * c)) by (field; lra).
  assert (E2 : 1 / c * T == (c * T) / (c * c)) by (field; lra).
  rewrite E1, E2.
  apply Qle_shift_div_l; [nra|].
  assert (E3 : S * S / (c * c) * (c * c) == S * S) by (field; lra).
  rewrite E3. exact Hc.
Qed.

(** The energy of the smoothed array is at most the energy of the input,
    whatever the window length, the offset and the number of outputs. *)
Lemma moving_average_energy_le (a : list Q) (m off L : nat) :
  (0 < m)%nat ->
  Qsum_upto (fun i => Qsqr (window_mean a m (i + off))) L <= Qsum (map Qsqr a).
Proof.
  intros Hm.
  assert (Hpos : 0 < inject_Z (Z.of_nat m)).
  { change 0 with (inject_Z 0). rewrite <- Zlt_Qlt. lia. }
  set (c := inject_Z (Z.of_nat m)) in *.
  set (G := fun i k => Qsqr (padded a (Z.of_nat (i + off) - Z.of_nat k))).
  apply Qle_trans with (Qsum_upto (fun i => (1 / c) * Qsum_upto (fun k => G i k) m) L).
  { apply Qsum_upto_le. intros i _. apply window_mean_sqr_le. exact Hm. }
  rewrite Qsum_upto_scale, Qsum_upto_swap.
  apply Qle_trans with ((1 / c) * Qsum_upto (fun _ => Qsum (map Qsqr a)) m).
  { apply Qmult_le_l.
    - apply Qlt_shift_div_l; [exact Hpos|]. lra.
    - apply Qsum_upto_le. intros k _. unfold G.
      rewrite (Qsum_upto_ext _
        (fun i => Qsqr (padded a ((Z.of_nat off - Z.of_nat k) + Z.of_nat i)))).
      + apply shifted_energy_le.
      + intros i _.
        replace (Z.of_nat (i + off) - Z.of_nat k)%Z
          with (Z.of_nat off - Z.of_nat k + Z.of_nat i)%Z by lia.
        reflexivity. }
  rewrite Qsum_upto_const. fold c.
  assert (E : 1 / c * (c * Qsum (map Qsqr a)) == Qsum (map Qsqr a)) by (field; lra).
  rewrite E. apply Qle_refl.
Qed.

(** C4 as stated fails: on a constant signal the rectified input has zero
    variance, while the zero-padded edges of the smoothed array are lower
    than its centre, so the output has a positive variance. *)
Lemma rd3_variance_can_increase :
  exists env,
    snd (rd3_envelope [1; 1; 1; 1; 1; 1] 1 1) = Ok env /\
    Qvar (map Qabs [1; 1; 1; 1; 1; 1]) == 0 /\
    0 < Qvar env /\
    ~ Qvar env <= Qvar (map Qabs [1; 1; 1; 1; 1; 1]).
Proof.
  eexists. split; [vm_compute; reflexivity|].
  split; [reflexivity|]. split; [reflexivity|].
  intros H. vm_compute in H. apply H. reflexivity.
Qed.

(** C4 (amended): the mean square (second moment about zero) of the
    envelope is at most the mean square of the rectified input. *)
Theorem rd3_mean_square_le (x1_relax : list Q) (fs f0 : Q) :
  x1_relax <> [] -> 0 < fs -> 0 < f0 ->
  exists env,
    snd (rd3_envelope x1_relax fs f0) = Ok env /\
    Qmean (map Qsqr env) <= Qmean (map Qsqr (map Qabs x1_relax)).
Proof.
  intros Hx Hfs Hf.
  assert (Hf0 : ~ f0 == 0) by lra.
  pose proof (rd3_envelope_ok x1_relax fs f0 Hx Hf0) as Hok.
  pose proof (window_ge_5 fs f0) as H5.
  cbv zeta in Hok.
  set (W := window fs f0) in *.
  set (M := Z.to_nat W) in *.
  set (N := List.length x1_relax) in *.
  set (off := ((Nat.min N M - 1) / 2)%nat) in *.
  set (a := map Qabs x1_relax) in *.
  assert (HN : (0 < N)%nat).
  { subst N. destruct x1_relax; [contradiction|simpl; lia]. }
  eexists. split; [exact Hok|].
  assert (Ha : List.length a = N) by (subst a; apply length_map).
  unfold Qmean, Qlen. rewrite !length_map, length_seq, Ha.
  rewrite map_map.
  change (Qsum (map (fun i => Qsqr (conv_full a (kernel W) (i + off)))
                    (seq 0 (Nat.max N M))))
    with (Qsum_upto (fun i => Qsqr (conv_full a (kernel W) (i + off))) (Nat.max N M)).
  assert (HE : Qsum_upto (fun i => Qsqr (conv_full a (kernel W) (i + off))) (Nat.max N M)
               <= Qsum (map Qsqr a)).
  { rewrite (Qsum_upto_ext _ (fun i => Qsqr (window_mean a M (i + off)))).
    - apply moving_average_energy_le. subst M. lia.
    - intros i _. unfold Qsqr. rewrite conv_kernel by lia. reflexivity. }
  assert (HposN : 0 < inject_Z (Z.of_nat N)).
  { change 0 with (inject_Z 0). rewrite <- Zlt_Qlt. lia. }
  assert (HNL : inject_Z (Z.of_nat N) <= inject_Z (Z.of_nat (Nat.max N M))).
  { rewrite <- Zle_Qle. lia. }
  apply Qle_trans with (Qsum (map Qsqr a) / inject_Z (Z.of_nat (Nat.max N M))).
  - apply Qmult_le_compat_r; [exact HE|].
    apply Qinv_le_0_compat. lra.
  - apply Qdiv_le_mono_den; [apply Qsum_sqr_nonneg|exact HposN|exact HNL].
Qed.

Lemma rd3_mean_square_le_witness :
  exists env,
    snd (rd3_envelope [1; 1; 1; 1; 1; 1] 1 1) = Ok env /\
    Qmean (map Qsqr env) <= Qmean (map Qsqr (map Qabs [1; 1; 1; 1; 1; 1])).
Proof.
  apply (rd3_mean_square_le [1; 1; 1; 1; 1; 1] 1 1).
  - discriminate.
  - reflexivity.
  - reflexivity.
Defined.

End RD3_Facts.

(* ------------------------------------------------------------------ *)
(** ** RD2 *)

Module RD2_Facts.
Import RD2.

Lemma Qmaximum_compat (l l' : list Q) :
  Forall2 Qeq l l' -> forall x x', x == x' -> Qmaximum x l == Qmaximum x' l'.
Proof.
  unfold Qmaximum. induction 1 as [|y y' r r' Hy Hr IH]; intros x x' Hx.
  - exact Hx.
  - simpl. apply IH. now rewrite Hx, Hy.
Qed.

Lemma Qmax_list_compat (l l' : list Q) :
  Forall2 Qeq l l' -> Qmax_list l == Qmax_list l'.
Proof.
  intros H. destruct H as [|y y' r r' Hy Hr]; [reflexivity|].
  simpl. now apply Qmaximum_compat.
Qed.

Lemma Forall2_Qabs (l l' : list Q) :
  Forall2 Qeq l l' -> Forall2 Qeq (map Qabs l) (map Qabs l').
Proof.
  induction 1 as [|y y' r r' Hy Hr IH]; simpl; constructor; [|exact IH].
  now rewrite Hy.
Qed.

Lemma map_sub_zero (d : Q) (l : list Q) :
  d == 0 -> Forall2 Qeq (map (fun v => v - d) l) l.
Proof.
  intros Hd. induction l as [|x l IH]; simpl; constructor; [|exact IH].
  rewrite Hd. ring.
Qed.

Lemma map_div_one (p : Q) (l l' : list Q) :
  p == 1 -> Forall2 Qeq l l' -> Forall2 Qeq (map (fun v => v / p) l) l'.
Proof.
  intros Hp. induction 1 as [|y y' r r' Hy Hr IH]; simpl; constructor; [|exact IH].
  rewrite Hp, Hy. field.
Qed.

(** C9: on a non-empty signal whose mean is 0 and whose peak magnitude is
    1, conditioning with [do_norm = True] returns the same signal, measures
    a DC offset of 0 and a peak of 1, and reports the normalisation as
    applied (exactly, in exact arithmetic). *)
Theorem rd2_idempotent (x_relax : list Q) (fs zoom_ms : Q) :
  x_relax <> [] ->
  Qmean x_relax == 0 ->
  Qmax_list (map Qabs x_relax) == 1 ->
  exists c,
    snd (rd2_clean_quick_look x_relax fs zoom_ms true) = Ok c /\
    Forall2 Qeq (x0_relax c) x_relax /\
    Forall2 Qeq (x1_relax c) x_relax /\
    dc_offset c == 0 /\ peak c == 1 /\ norm_flag c = true.
Proof.
  intros Hx Hdc Hpk. unfold rd2_clean_quick_look.
  set (dc := Qmean x_relax) in *.
  set (x0 := map (fun v => v - dc) x_relax).
  assert (H0 : Forall2 Qeq x0 x_relax) by (apply map_sub_zero; exact Hdc).
  assert (Hx0 : x0 <> []).
  { intros E. apply map_eq_nil in E. contradiction. }
  assert (E1 : np_max_abs x_relax = Ok (Qmax_list (map Qabs x_relax))).
  { destruct x_relax; [contradiction|reflexivity]. }
  assert (E2 : np_max_abs x0 = Ok (Qmax_list (map Qabs x0))).
  { destruct x0; [contradiction|reflexivity]. }
  rewrite E1, E2. cbn [snd].
  set (pk := Qmax_list (map Qabs x0)).
  assert (Hpk0 : pk == 1).
  { unfold pk. rewrite (Qmax_list_compat _ _ (Forall2_Qabs _ _ H0)). exact Hpk. }
  assert (Hflag : Qltb 0 pk = true) by (apply Qltb_lt; lra).
  rewrite Hflag. cbn [andb].
  eexists. split; [reflexivity|]. cbn [x0_relax x1_relax dc_offset peak norm_flag].
  repeat split; try assumption.
  apply map_div_one; assumption.
Qed.

Lemma rd2_idempotent_witness :
  exists c,
    snd (rd2_clean_quick_look [1; -1; 1 # 2; - (1 # 2)] 1000 (1 # 5) true) = Ok c /\
    Forall2 Qeq (x0_relax c) [1; -1; 1 # 2; - (1 # 2)] /\
    Forall2 Qeq (x1_relax c) [1; -1; 1 # 2; - (1 # 2)] /\
    dc_offset c == 0 /\ peak c == 1 /\ norm_flag c = true.
Proof.
  apply (rd2_idempotent [1; -1; 1 # 2; - (1 # 2)] 1000 (1 # 5)).
  - discriminate.
  - reflexivity.
  - reflexivity.
Defined.

End RD2_Facts.

(* ------------------------------------------------------------------ *)
(** ** Python indexing on in-range indices *)

Lemma py_int_nonneg (q : Q) : 0 <= q -> py_int q = Qfloor q.
Proof.
  destruct q as [n d]. unfold Qle, py_int, Qfloor. simpl. intros H.
  apply Z.quot_div_nonneg; lia.
Qed.

Lemma py_getitem_nat {A} (l : list A) (k : nat) (a : A) :
  nth_error l k = Some a -> py_getitem l (Z.of_nat k) = Ok a.
Proof.
  intros H. unfold py_getitem.
  assert (Hk : (k < List.length l)%nat) by (apply nth_error_Some; congruence).
  assert (E1 : (Z.of_nat k <? 0)%Z = false) by (apply Z.ltb_ge; lia).
  rewrite E1.
  assert (E2 : ((0 <=? Z.of_nat k) && (Z.of_nat k <? Z.of_nat (List.length l)))%Z%bool = true).
  { apply andb_true_iff. split; [apply Z.leb_le|apply Z.ltb_lt]; lia. }
  now rewrite E2, Nat2Z.id, H.
Qed.



Lemma slice_bound_nat (n k : nat) :
  (k <= n)%nat -> slice_bound (Z.of_nat n) (Z.of_nat k) = k.
Proof.
  intros H. unfold slice_bound.
  assert (E : (Z.of_nat k <? 0)%Z = false) by (apply Z.ltb_ge; lia).
  rewrite E. lia.
Qed.

Lemma py_slice_from_nat {A} (l : list A) (k : nat) :
  (k <= List.length l)%nat -> py_slice_from l (Z.of_nat k) = skipn k l.
Proof.
  intros H. unfold py_slice_from. now rewrite slice_bound_nat.
Qed.

Lemma py_slice_nat {A} (l : list A) (a b : nat) :
  (a <= List.length l)%nat -> (b <= List.length l)%nat ->
  py_slice l (Z.of_nat a) (Z.of_nat b) = firstn (b - a) (skipn a l).
Proof.
  intros Ha Hb. unfold py_slice. now rewrite !slice_bound_nat.
Qed.


(* ------------------------------------------------------------------ *)
(** ** RD4 *)

Module RD4_Facts.
Import RD4 RD4_Spec.

Lemma time_axis_length (n : nat) (fs : Q) : List.length (time_axis n fs) = n.
Proof. unfold time_axis. now rewrite length_map, length_seq. Qed.

Lemma Qfloor_nonneg (q : Q) : 0 <= q -> (0 <= Qfloor q)%Z.
Proof.
  intros H. change 0%Z with (Qfloor 0). now apply Qfloor_resp_le.
Qed.

(** Rounding keeps the sign of a positive number: the result is a
    non-negative double or infinity. *)
Lemma b64_pos_nonneg (a : Q) :
  0 < a -> b64_pos a = PInf \/ exists r, b64_pos a = Fin r /\ 0 <= r.
Proof.
  intros Ha. unfold b64_pos.
  set (ulp := pow2 (Z.max (ilog2 a) (-1022) - 52)).
  assert (Hulp : 0 < ulp) by apply pow2_pos.
  destruct (Qle_bool _ _); [now left|right].
  eexists. split; [reflexivity|]. rewrite Qred_correct.
  destruct (round_half_even_err (a / ulp)) as [M1 _].
  assert (Hq : 0 < a / ulp).
  { apply Qlt_shift_div_l; [exact Hulp|]. now rewrite Qmult_0_l. }
  assert (Hm : (0 <= round_half_even (a / ulp))%Z).
  { assert (H : inject_Z (-1) < inject_Z (round_half_even (a / ulp))).
    { change (inject_Z (-1)) with (-1). lra. }
    rewrite <- Zlt_Qlt in H. lia. }
  apply Qmult_le_0_compat; [|lra].
  change 0 with (inject_Z 0). now rewrite <- Zle_Qle.
Qed.

(** For positive [fs] and [f0], [int(fs / f0)] is a non-negative integer
    when it is an integer at all. *)
Lemma samples_per_period_nonneg (fs f0 : Q) (spp : Z) :
  0 < fs -> 0 < f0 -> samples_per_period fs f0 = Ok spp -> (0 <= spp)%Z.
Proof.
  intros Hfs Hf. unfold samples_per_period.
  rewrite (d_div_fin fs f0) by lra.
  assert (Hq : 0 < fs / f0).
  { apply Qlt_shift_div_l; [exact Hf|]. now rewrite Qmult_0_l. }
  unfold b64. rewrite (Qeq_bool_false (fs / f0) 0) by lra.
  rewrite (proj2 (Qltb_ge (fs / f0) 0)) by lra.
  destruct (b64_pos_nonneg (fs / f0) Hq) as [-> | (r & -> & Hr)]; [discriminate|].
  intros E. injection E as <-.
  rewrite (py_int_nonneg r Hr). now apply Qfloor_nonneg.
Qed.

(** The start chosen by the code is [start_index]. *)
Lemma fit_start_eq (n : nat) (spp guard_periods : Z) :
  (0 <= spp)%Z -> (0 <= guard_periods)%Z ->
  fit_start (Z.of_nat n) spp guard_periods =
    ((Z.of_nat n <=? guard_periods * spp)%Z,
     Z.of_nat (start_index n spp guard_periods)).
Proof.
  intros Hs Hg. unfold fit_start, start_index.
  destruct (Z.of_nat n <=? guard_periods * spp)%Z; [reflexivity|].
  f_equal. rewrite Z2Nat.id; [reflexivity|]. apply Z.mul_nonneg_nonneg; assumption.
Qed.

Lemma start_index_lt (n : nat) (spp guard_periods : Z) :
  (0 < n)%nat -> (start_index n spp guard_periods < n)%nat.
Proof.
  intros Hn. unfold start_index.
  destruct (Z.leb_spec (Z.of_nat n) (guard_periods * spp)); lia.
Qed.


(** When the level at the window start is not above its own threshold, the
    window is empty. *)
Lemma fit_stop_empty (env : list Q) (drop_frac : Q) (i0 : nat) :
  (i0 < List.length env)%nat -> nth i0 env 0 <= nth i0 env 0 * drop_frac ->
  fit_stop env (Z.of_nat i0) (nth i0 env 0) drop_frac = Z.of_nat i0.
Proof.
  intros Hi0 Hle. unfold fit_stop. rewrite py_slice_from_nat by lia.
  destruct (skipn i0 env) as [|x r] eqn:E.
  - apply (f_equal (@List.length Q)) in E. rewrite length_skipn in E.
    simpl in E. lia.
  - assert (Hx : x = nth i0 env 0).
    { rewrite <- (Nat.add_0_r i0), <- nth_skipn, E. reflexivity. }
    cbn [first_index]. rewrite Hx, (proj2 (Qle_bool_iff _ _) Hle). f_equal. lia.
Qed.

Section Numpy.

Variable np_log : Q -> pyfloat.
Variable np_exp : pyfloat -> pyfloat.
Variable np_sqrt : pyfloat -> pyfloat.
Variable np_polyfit1 : list pyfloat -> list pyfloat -> result (pyfloat * pyfloat).

(** C3, the failing evaluation: on an all-zero envelope (what RD2 and RD3
    produce from an all-zero capture) the fit window is empty and the
    progress line's [t_fit[0]] raises IndexError; nothing is returned. *)
Theorem rd4_zero_envelope_raises :
  rd4_fit_decay np_log np_exp np_sqrt np_polyfit1
    (repeat 0 100) 125000000 4995000 3 (1 # 10) = ([ShortFit], Raise IndexError).
Proof. vm_compute. reflexivity. Qed.

(** C7, the failing evaluation: with a zero first sample and no guard
    interval (every precondition of the claim holds) the fit window is
    empty; after the short-window warning the progress line's [t_fit[0]]
    raises IndexError, and no tau is returned. *)
Theorem rd4_zero_start_raises :
  rd4_fit_decay np_log np_exp np_sqrt np_polyfit1
    [0; 1; 1 # 2] 1 1 0 (1 # 10) = ([ShortFit], Raise IndexError).
Proof. vm_compute. reflexivity. Qed.

(** X20: in general the stage raises IndexError whenever the envelope at the
    window start [i0 = guard_periods * int(fs / f0)] (or 0 after the
    fall-back) is zero or negative. *)
Lemma rd4_empty_window_raises (env : list Q) (fs f0 : Q) (guard_periods : Z)
    (drop_frac : Q) (spp : Z) :
  0 < fs -> 0 < f0 -> (0 <= guard_periods)%Z -> 0 < drop_frac -> drop_frac < 1 ->
  env <> [] ->
  samples_per_period fs f0 = Ok spp ->
  nth (start_index (List.length env) spp guard_periods) env 0 <= 0 ->
  snd (rd4_fit_decay np_log np_exp np_sqrt np_polyfit1
         env fs f0 guard_periods drop_frac) = Raise IndexError.
Proof.
  intros Hfs Hf Hg Hd0 Hd1 Henv Hspp Hneg.
  pose proof (samples_per_period_nonneg fs f0 spp Hfs Hf Hspp) as Hs.
  set (n := List.length env) in *.
  set (i0 := start_index n spp guard_periods) in *.
  assert (Hn : (0 < n)%nat).
  { subst n. destruct env; [contradiction|simpl; lia]. }
  assert (Hi0 : (i0 < n)%nat) by (apply start_index_lt; exact Hn).
  unfold rd4_fit_decay.
  rewrite Qeq_bool_false by lra. rewrite Hspp. fold n.
  rewrite (fit_start_eq n spp guard_periods Hs Hg). fold i0.
  assert (E : (Z.of_nat i0 <? Z.of_nat n)%Z = true) by (apply Z.ltb_lt; lia).
  rewrite E.
  rewrite (py_getitem_nat env i0 (nth i0 env 0)) by (apply nth_error_nth'; exact Hi0).
  rewrite fit_stop_empty by (try exact Hi0; nra).
  rewrite !py_slice_nat by (rewrite ?time_axis_length; fold n; lia).
  rewrite Nat.sub_diag. cbn [firstn List.length Nat.ltb Nat.leb].
  reflexivity.
Qed.

End Numpy.

End RD4_Facts.

(* ================================================================== *)
(** * Further properties of the stages *)

(* ------------------------------------------------------------------ *)
(** ** RD7 on valid inputs *)

Module RD7_More.
Import RD7.

(** Whatever the inputs, the two returned lists pair up: they have the same
    length, at most three entries, and every warning comes with its own fix. *)
Theorem rd7_warn_fix_paired (tau_s f0_hz Qfac : option pyfloat) :
  let r := rd7_damping_linewidth tau_s f0_hz Qfac in
  List.length (warn r) = List.length (fix_ r) /\
  (List.length (warn r) <= 3)%nat /\
  forall w f, In (w, f) (combine (warn r) (fix_ r)) ->
    In (w, f) [(w_tau, f_tau); (w_f0, f_f0); (w_Q, f_Q);
               (w_small, f_small); (w_large, f_large); (w_mismatch, f_mismatch)].
Proof.
  intros r. subst r. unfold rd7_damping_linewidth.
  destruct (non_positive tau_s); [simpl; intuition|].
  destruct (non_positive f0_hz); [simpl; intuition|].
  destruct (non_positive Qfac); [simpl; intuition|].
  cbv zeta.
  destruct (fl_ltb _ _); destruct (fl_gtb _ _); destruct (fl_gtb _ _);
    simpl; intuition.
Qed.

Lemma no_guard_warning (b1 b2 : bool) (w : string) :
  w <> w_small -> w <> w_large ->
  ~ In w (map fst ((if b1 then [(w_small, f_small)] else []) ++
                   (if b2 then [(w_large, f_large)] else []) ++ [])).
Proof. intros H1 H2. destruct b1, b2; simpl; intuition. Qed.

(** X3: the frequency estimator's failure value is not caught: with
    [f0 = NaN] and the driver's [Q = pi * f0 * tau] (NaN as well) the stage
    computes on, returns [alpha = 1 / tau] and [df_tau = 1 / (2 pi tau)] as
    the code computes them, a NaN [df_Q], and none of the precondition
    diagnostics nor the mismatch warning. *)
Theorem rd7_nan_f0_not_flagged (t : Q) :
  0 < t ->
  let r := rd7_damping_linewidth (Some (Fin t)) (Some NaN)
             (Some (Q_final NaN (Fin t))) in
  alpha r = d_div (Fin 1) (Fin t) /\
  df_tau r = d_div (Fin 1) (d_mul (d_mul (Fin 2) (Fin np_pi)) (Fin t)) /\
  df_Q r = NaN /\
  ~ In w_tau (warn r) /\ ~ In w_f0 (warn r) /\ ~ In w_Q (warn r) /\
  ~ In w_mismatch (warn r).
Proof.
  intros Ht r. subst r.
  assert (HQ : Q_final NaN (Fin t) = NaN) by reflexivity.
  rewrite HQ. unfold rd7_damping_linewidth.
  cbn [non_positive fl_leb get].
  rewrite (proj2 (Qle_bool_gt t 0) Ht).
  cbv beta iota zeta.
  set (a := d_div (Fin 1) (Fin t)).
  set (dft := d_div (Fin 1) (d_mul (d_mul (Fin 2) (Fin np_pi)) (Fin t))).
  assert (Hq : d_div NaN NaN = NaN) by reflexivity.
  rewrite Hq.
  assert (Hm : mismatch dft NaN = NaN).
  { unfold mismatch, d_sub, fl_sub, d_div, py_max, fl_gtb.
    destruct dft; reflexivity. }
  rewrite Hm. cbn [fl_gtb fl_ltb app].
  cbn [alpha df_tau df_Q warn].
  split; [reflexivity|]. split; [reflexivity|]. split; [reflexivity|].
  repeat split; apply no_guard_warning; discriminate.
Qed.

Lemma rd7_nan_f0_not_flagged_witness :
  let r := rd7_damping_linewidth (Some (Fin (1 # 10000))) (Some NaN)
             (Some (Q_final NaN (Fin (1 # 10000)))) in
  alpha r = d_div (Fin 1) (Fin (1 # 10000)) /\
  df_tau r = d_div (Fin 1) (d_mul (d_mul (Fin 2) (Fin np_pi)) (Fin (1 # 10000))) /\
  df_Q r = NaN /\
  ~ In w_tau (warn r) /\ ~ In w_f0 (warn r) /\ ~ In w_Q (warn r) /\
  ~ In w_mismatch (warn r).
Proof.
  apply (rd7_nan_f0_not_flagged (1 # 10000)). reflexivity.
Defined.

End RD7_More.

(* ------------------------------------------------------------------ *)
(** ** RD6: layout of the CSV store *)

Module RD6_More.
Import RD6.

Lemma insert_key_length (k : string) (l : list string) :
  List.length (insert_key k l) = S (List.length l).
Proof.
  induction l as [|h t IH]; simpl; [reflexivity|].
  destruct (String.leb k h); simpl; [reflexivity|]. now rewrite IH.
Qed.

Lemma sorted_keys_length (extras : list (string * cell)) :
  List.length (sorted_keys extras) = List.length extras.
Proof.
  unfold sorted_keys. induction extras as [|[k v] t IH]; simpl; [reflexivity|].
  now rewrite insert_key_length, IH.
Qed.

Lemma insert_key_perm (k : string) (l : list string) :
  Permutation (insert_key k l) (k :: l).
Proof.
  induction l as [|h t IH]; simpl; [apply Permutation_refl|].
  destruct (String.leb k h); [apply Permutation_refl|].
  apply perm_trans with (h :: k :: t); [now apply perm_skip|apply perm_swap].
Qed.

Lemma sorted_keys_perm (extras : list (string * cell)) :
  Permutation (sorted_keys extras) (map fst extras).
Proof.
  unfold sorted_keys. induction extras as [|[k v] t IH]; simpl; [apply perm_nil|].
  apply perm_trans with (k :: fold_right insert_key [] (map fst t)).
  - apply insert_key_perm.
  - now apply perm_skip.
Qed.

Lemma insert_key_sorted (k : string) (l : list string) :
  Sorted key_le l -> Sorted key_le (insert_key k l).
Proof.
  induction l as [|h t IH]; intros Hs; simpl.
  - repeat constructor.
  - destruct (String.leb k h) eqn:E.
    + constructor; [exact Hs|]. constructor. exact E.
    + inversion Hs as [|? ? Ht Hh]; subst.
      constructor; [now apply IH|].
      assert (Hhk : key_le h k).
      { destruct (String.leb_total h k) as [H|H]; [exact H|]. congruence. }
      destruct t as [|h' t']; simpl.
      * constructor. exact Hhk.
      * destruct (String.leb k h'); constructor; [exact Hhk|].
        now inversion Hh.
Qed.

Lemma lookup_in (k : string) (v : cell) (extras : list (string * cell)) :
  NoDup (map fst extras) -> In (k, v) extras -> lookup k extras = v.
Proof.
  induction extras as [|[k' v'] t IH]; intros Hnd Hin; simpl in *; [contradiction|].
  inversion Hnd as [|? ? Hnotin Hnd']; subst.
  destruct Hin as [Heq|Hin].
  - injection Heq as -> ->. now rewrite String.eqb_refl.
  - destruct (String.eqb k k') eqn:E.
    + apply String.eqb_eq in E. subst k'. exfalso. apply Hnotin.
      apply (in_map fst) in Hin. exact Hin.
    + now apply IH.
Qed.

(** X4: the extra columns are written in ascending key order, each key of the
    [extras] dictionary exactly once. *)
Theorem rd6_extra_columns_sorted (extras : list (string * cell)) :
  Sorted key_le (sorted_keys extras) /\
  Permutation (sorted_keys extras) (map fst extras).
Proof.
  split; [|apply sorted_keys_perm].
  unfold sorted_keys. induction (map fst extras) as [|k t IH]; simpl.
  - constructor.
  - now apply insert_key_sorted.
Qed.

(** A record has exactly as many fields as the header of the same call:
    the eight base fields and one per extra. *)
Theorem rd6_record_matches_header (timestamp : string) (f0 tau_s Qfac rmse : pyfloat)
    (alpha df_tau df_Q : option pyfloat) (extras : list (string * cell)) :
  List.length (record timestamp f0 tau_s Qfac rmse alpha df_tau df_Q extras) =
    List.length (header extras) /\
  List.length (header extras) = (8 + List.length extras)%nat.
Proof.
  unfold record, header.
  rewrite length_app, !length_map, length_app, sorted_keys_length. simpl. lia.
Qed.

(** X5: each entry of [extras] lands under its own column: some position past
    the eight base fields holds the key in the header and the value in the
    record. *)
Theorem rd6_extras_aligned (timestamp : string) (f0 tau_s Qfac rmse : pyfloat)
    (alpha df_tau df_Q : option pyfloat) (extras : list (string * cell))
    (k : string) (v : cell) :
  NoDup (map fst extras) -> In (k, v) extras ->
  exists i, (i < List.length extras)%nat /\
    nth (8 + i) (header extras) CNone = CStr k /\
    nth (8 + i) (record timestamp f0 tau_s Qfac rmse alpha df_tau df_Q extras) CNone = v.
Proof.
  intros Hnd Hin.
  assert (Hk : In k (sorted_keys extras)).
  { apply (Permutation_in k (Permutation_sym (sorted_keys_perm extras))).
    apply (in_map fst) in Hin. exact Hin. }
  destruct (In_nth _ _ EmptyString Hk) as (i & Hi & Hnth).
  exists i. rewrite sorted_keys_length in Hi. split; [exact Hi|].
  assert (Hi' : (i < List.length (sorted_keys extras))%nat)
    by now rewrite sorted_keys_length.
  split.
  - unfold header. rewrite map_app, app_nth2 by (simpl; lia).
    rewrite length_map. change (List.length base_header) with 8%nat.
    replace (8 + i - 8)%nat with i by lia.
    rewrite (nth_indep _ CNone (CStr EmptyString)) by now rewrite length_map.
    now rewrite map_nth, Hnth.
  - unfold record. rewrite app_nth2 by (simpl; lia).
    cbn [List.length]. replace (8 + i - 8)%nat with i by lia.
    rewrite (nth_indep _ CNone (lookup EmptyString extras)) by now rewrite length_map.
    rewrite (map_nth (fun k => lookup k extras)), Hnth.
    now apply lookup_in.
Qed.

Lemma rd6_extras_aligned_witness :
  exists i, (i < 2)%nat /\
    nth (8 + i) (header [("mode"%string, CStr "SIM"); ("fs_hz"%string, CNum (Fin 125000000))])
        CNone = CStr "mode" /\
    nth (8 + i)
        (record "2026-01-01T00:00:00" (Fin 5000000) (Fin (1 # 10000)) (Fin 1570) (Fin 0)
           None None None
           [("mode"%string, CStr "SIM"); ("fs_hz"%string, CNum (Fin 125000000))])
        CNone = CStr "SIM".
Proof.
  apply (rd6_extras_aligned "2026-01-01T00:00:00" (Fin 5000000) (Fin (1 # 10000))
           (Fin 1570) (Fin 0) None None None
           [("mode"%string, CStr "SIM"); ("fs_hz"%string, CNum (Fin 125000000))]
           "mode" (CStr "SIM")).
  - repeat constructor; simpl; intuition discriminate.
  - left. reflexivity.
Defined.

(** An existing file is only ever appended to: its rows stay in place, at
    most one row follows them, and no header is added. *)
Theorem rd6_never_rewrites (timestamp : string) (f0_hz : option pyfloat)
    (tau_s Qfac rmse : pyfloat) (alpha df_tau df_Q : option pyfloat)
    (rows : list row) (extras : list (string * cell)) :
  let out := snd (rd6_save_results timestamp f0_hz tau_s Qfac rmse
                    alpha df_tau df_Q (Some rows) extras) in
  out = Some rows \/
  exists f0, f0_hz = Some f0 /\
    out = Some (rows ++ [record timestamp f0 tau_s Qfac rmse alpha df_tau df_Q extras])%list.
Proof.
  intros out. subst out. unfold rd6_save_results.
  destruct f0_hz as [f0|]; [|now left].
  destruct (fl_neb f0 f0); [now left|].
  destruct (fl_leb tau_s (Fin 0)); [now left|].
  destruct (fl_leb Qfac (Fin 0)); [now left|].
  right. exists f0. split; reflexivity.
Qed.

(** X6: two accepted calls in a row: the header is written once, by the first
    call on a missing file, and stays that of the first call even when the
    second call brings other extras; the two records follow in call order. *)
Theorem rd6_two_saves (ts1 ts2 : string) (f1 f2 tau1 tau2 Q1 Q2 rmse1 rmse2 : pyfloat)
    (a1 a2 dt1 dt2 dq1 dq2 : option pyfloat) (file : csv_file)
    (extras1 extras2 : list (string * cell)) :
  is_nan f1 = false -> fl_gtb tau1 (Fin 0) = true -> fl_gtb Q1 (Fin 0) = true ->
  is_nan f2 = false -> fl_gtb tau2 (Fin 0) = true -> fl_gtb Q2 (Fin 0) = true ->
  let file1 := snd (rd6_save_results ts1 (Some f1) tau1 Q1 rmse1 a1 dt1 dq1 file extras1) in
  let file2 := snd (rd6_save_results ts2 (Some f2) tau2 Q2 rmse2 a2 dt2 dq2 file1 extras2) in
  file2 = Some ((match file with None => [header extras1] | Some rows => rows end) ++
                [record ts1 f1 tau1 Q1 rmse1 a1 dt1 dq1 extras1;
                 record ts2 f2 tau2 Q2 rmse2 a2 dt2 dq2 extras2])%list.
Proof.
  intros Hn1 Ht1 Hq1 Hn2 Ht2 Hq2 file1 file2. subst file1 file2.
  unfold rd6_save_results.
  rewrite !RD6_Facts.fl_neb_self, Hn1, Hn2.
  rewrite (RD6_Facts.fl_gtb_not_leb _ _ Ht1), (RD6_Facts.fl_gtb_not_leb _ _ Hq1),
    (RD6_Facts.fl_gtb_not_leb _ _ Ht2), (RD6_Facts.fl_gtb_not_leb _ _ Hq2).
  cbn [snd]. destruct file as [rows|]; cbn [append_row].
  - now rewrite <- app_assoc.
  - reflexivity.
Qed.

Lemma rd6_two_saves_witness :
  snd (rd6_save_results "2026-01-01T00:00:01" (Some (Fin 5000000)) (Fin (1 # 10000))
         (Fin 1570) (Fin 0) None None None
         (snd (rd6_save_results "2026-01-01T00:00:00" (Some (Fin 4995000))
                 (Fin (1 # 10000)) (Fin 1569) (Fin 0) None None None None
                 [("mode"%string, CStr "SIM")]))
         []) =
  Some ([header [("mode"%string, CStr "SIM")]] ++
        [record "2026-01-01T00:00:00" (Fin 4995000) (Fin (1 # 10000)) (Fin 1569) (Fin 0)
           None None None [("mode"%string, CStr "SIM")];
         record "2026-01-01T00:00:01" (Fin 5000000) (Fin (1 # 10000)) (Fin 1570) (Fin 0)
           None None None []])%list.
Proof.
  apply (rd6_two_saves "2026-01-01T00:00:00" "2026-01-01T00:00:01"
           (Fin 4995000) (Fin 5000000) (Fin (1 # 10000)) (Fin (1 # 10000))
           (Fin 1569) (Fin 1570) (Fin 0) (Fin 0) None None None None None None None
           [("mode"%string, CStr "SIM")] []); reflexivity.
Defined.

End RD6_More.

(* ------------------------------------------------------------------ *)
(** ** RD2: what conditioning guarantees *)

Module RD2_More.
Import RD2.






(** What the stage returns on a non-empty signal. *)
Lemma rd2_ok (x_relax : list Q) (fs zoom_ms : Q) (do_norm : bool) :
  x_relax <> [] ->
  let dc := Qmean x_relax in
  let x0 := map (fun v => v - dc) x_relax in
  let pk := Qmax_list (map Qabs x0) in
  let flag := do_norm && Qltb 0 pk in
  snd (rd2_clean_quick_look x_relax fs zoom_ms do_norm) =
    Ok (mkCleaned x0 (if flag then map (fun v => v / pk) x0 else x0) dc pk flag).
Proof.
  intros Hx dc x0 pk flag. unfold rd2_clean_quick_look. fold dc x0.
  assert (E1 : np_max_abs x_relax = Ok (Qmax_list (map Qabs x_relax))).
  { destruct x_relax; [contradiction|reflexivity]. }
  assert (E2 : np_max_abs x0 = Ok pk).
  { unfold x0, pk. destruct x_relax; [contradiction|reflexivity]. }
  now rewrite E1, E2.
Qed.






Lemma signbit_div_pos (v p : Q) : 0 < p -> RD5.signbit (v / p) = RD5.signbit v.
Proof.
  intros Hp. unfold RD5.signbit.
  destruct (Qltb v 0) eqn:E.
  - apply Qltb_lt in E. apply Qltb_lt.
    apply Qlt_shift_div_r; [exact Hp|]. lra.
  - apply Qltb_ge in E. apply Qltb_ge.
    apply Qle_shift_div_l; [exact Hp|]. lra.
Qed.

Lemma sign_changes_scaled (p : Q) (l : list Q) (k : nat) :
  0 < p ->
  RD5.sign_changes k (map (fun v => v / p) l) = RD5.sign_changes k l.
Proof.
  intros Hp. revert k. induction l as [|a r IH]; intros k; [reflexivity|].
  destruct r as [|b r']; [reflexivity|].
  change (RD5.sign_changes k (map (fun v => v / p) (a :: b :: r'))) with
    (if xorb (RD5.signbit (a / p)) (RD5.signbit (b / p))
     then k :: RD5.sign_changes (S k) (map (fun v => v / p) (b :: r'))
     else RD5.sign_changes (S k) (map (fun v => v / p) (b :: r'))).
  change (RD5.sign_changes k (a :: b :: r')) with
    (if xorb (RD5.signbit a) (RD5.signbit b)
     then k :: RD5.sign_changes (S k) (b :: r')
     else RD5.sign_changes (S k) (b :: r')).
  now rewrite !signbit_div_pos, IH.
Qed.

(** X15: normalisation does not move the zero crossings: the frequency estimator
    finds the same crossing positions in the normalised output as in the
    DC-removed one. *)
Theorem rd2_normalisation_keeps_crossings (x_relax : list Q) (fs zoom_ms : Q)
    (do_norm : bool) :
  x_relax <> [] ->
  exists c,
    snd (rd2_clean_quick_look x_relax fs zoom_ms do_norm) = Ok c /\
    RD5.sign_changes 0 (x1_relax c) = RD5.sign_changes 0 (x0_relax c).
Proof.
  intros Hx. eexists. split; [apply (rd2_ok x_relax fs zoom_ms do_norm Hx)|].
  cbn [x0_relax x1_relax].
  destruct do_norm; cbn [andb]; [|reflexivity].
  destruct (Qltb 0 _) eqn:Ep; [|reflexivity].
  apply Qltb_lt in Ep. now apply sign_changes_scaled.
Qed.

Lemma rd2_normalisation_keeps_crossings_witness :
  exists c,
    snd (rd2_clean_quick_look [3; 1; 2] 1000 (1 # 5) true) = Ok c /\
    RD5.sign_changes 0 (x1_relax c) = RD5.sign_changes 0 (x0_relax c).
Proof.
  apply (rd2_normalisation_keeps_crossings [3; 1; 2] 1000 (1 # 5) true).
  discriminate.
Defined.

End RD2_More.

(* ------------------------------------------------------------------ *)
(** ** RD3: errors, warnings and bounds *)

Module RD3_More.
Import RD3.

(** X16: the stage returns exactly on a non-empty signal with a non-zero
    [f0]; a zero [f0] raises ZeroDivisionError (also on an empty signal,
    the division comes first), an empty signal raises ValueError. *)
Theorem rd3_error_behaviour (x1_relax : list Q) (fs f0 : Q) :
  match snd (rd3_envelope x1_relax fs f0) with
  | Ok env => x1_relax <> [] /\ ~ f0 == 0
  | Raise e =>
      (e = ZeroDivisionError /\ f0 == 0) \/
      (e = ValueError /\ x1_relax = [] /\ ~ f0 == 0)
  end.
Proof.
  unfold rd3_envelope.
  destruct (Qeq_bool f0 0) eqn:E.
  - cbn [snd]. left. split; [reflexivity|]. now apply Qeq_bool_iff.
  - assert (Hf : ~ f0 == 0).
    { intros H. apply Qeq_bool_iff in H. congruence. }
    cbn [snd]. destruct x1_relax as [|a r].
    + right. repeat split; assumption.
    + assert (Hk : kernel (window fs f0) <> []).
      { intros Hnil. apply (f_equal (@List.length Q)) in Hnil.
        rewrite RD3_Facts.kernel_length in Hnil.
        pose proof (RD3_Facts.window_ge_5 fs f0). simpl in Hnil. lia. }
      rewrite RD3_Facts.np_convolve_same_ok by (try exact Hk; discriminate).
      split; [discriminate|exact Hf].
Qed.

(** X17: the over-smoothing warning is printed exactly when the window [M]
    (computed from the double quotient [fs / f0]) exceeds a quarter of the
    signal length; a signal of fewer than 20 samples always gets it, the
    window being at least 5. *)
Theorem rd3_window_too_large_iff (x1_relax : list Q) (fs f0 : Q) :
  ~ f0 == 0 ->
  (In WindowTooLarge (fst (rd3_envelope x1_relax fs f0)) <->
   (Z.of_nat (List.length x1_relax) / 4 < window fs f0)%Z) /\
  ((List.length x1_relax < 20)%nat ->
   In WindowTooLarge (fst (rd3_envelope x1_relax fs f0))).
Proof.
  intros Hf.
  assert (Hiff : In WindowTooLarge (fst (rd3_envelope x1_relax fs f0)) <->
                 (Z.of_nat (List.length x1_relax) / 4 < window fs f0)%Z).
  { unfold rd3_envelope. rewrite (Qeq_bool_false _ _ Hf). cbn [fst].
    rewrite length_map.
    assert (E : (window fs f0 <? 5)%Z = false).
    { apply Z.ltb_ge. apply RD3_Facts.window_ge_5. }
    rewrite E.
    destruct (Z.ltb_spec (Z.of_nat (List.length x1_relax) / 4) (window fs f0)) as [Hlt|Hge].
    - split; [intros _; exact Hlt|intros _].
      apply in_or_app. right. now left.
    - split; [|lia]. intros Hin. exfalso.
      destruct (std_ltb _ _); simpl in Hin; intuition discriminate. }
  split; [exact Hiff|].
  intros Hlen. apply Hiff.
  pose proof (RD3_Facts.window_ge_5 fs f0) as H5.
  assert (Hq : (Z.of_nat (List.length x1_relax) / 4 < 5)%Z).
  { apply Z.div_lt_upper_bound; lia. }
  lia.
Qed.

Lemma rd3_window_too_large_iff_witness :
  (In WindowTooLarge (fst (rd3_envelope [1; -1; 1 # 2] 125000000 4995000)) <->
   Z.lt (Z.of_nat (List.length [1; -1; 1 # 2]) / 4) (window 125000000 4995000)) /\
  (Nat.lt (List.length [1; -1; 1 # 2]) 20 ->
   In WindowTooLarge (fst (rd3_envelope [1; -1; 1 # 2] 125000000 4995000))).
Proof.
  apply (rd3_window_too_large_iff [1; -1; 1 # 2] 125000000 4995000).
  intros H. discriminate H.
Defined.

End RD3_More.

(* ------------------------------------------------------------------ *)
(** ** RD4: degenerate inputs, the sign of tau, the short-window warning *)

Module RD4_More.
Import RD4 RD4_Spec.


Section Numpy.

Variable np_log : Q -> pyfloat.
Variable np_exp : pyfloat -> pyfloat.
Variable np_sqrt : pyfloat -> pyfloat.
Variable np_polyfit1 : list pyfloat -> list pyfloat -> result (pyfloat * pyfloat).

Lemma b64_not_nan (q : Q) : b64 q <> NaN.
Proof.
  unfold b64, b64_pos. destruct (Qeq_bool q 0); [discriminate|].
  destruct (Qltb q 0); destruct (Qle_bool _ _); discriminate.
Qed.

(** X21: a zero [f0] raises ZeroDivisionError before anything is printed;
    a quotient [fs / f0] that overflows to an infinity raises OverflowError
    at [int(fs / f0)], also before anything is printed; otherwise an empty
    envelope raises IndexError at [env[i0]] (or [env[0]]), whatever the
    other arguments. *)
Theorem rd4_degenerate_inputs (env : list Q) (fs f0 : Q) (guard_periods : Z)
    (drop_frac : Q) :
  (f0 == 0 ->
   rd4_fit_decay np_log np_exp np_sqrt np_polyfit1 env fs f0 guard_periods drop_frac
   = ([], Raise ZeroDivisionError)) /\
  (~ f0 == 0 -> is_finite (d_div (Fin fs) (Fin f0)) = false ->
   rd4_fit_decay np_log np_exp np_sqrt np_polyfit1 env fs f0 guard_periods drop_frac
   = ([], Raise OverflowError)) /\
  (~ f0 == 0 -> is_finite (d_div (Fin fs) (Fin f0)) = true -> env = [] ->
   snd (rd4_fit_decay np_log np_exp np_sqrt np_polyfit1
          env fs f0 guard_periods drop_frac) = Raise IndexError).
Proof.
  split; [|split].
  - intros H. unfold rd4_fit_decay.
    now rewrite (proj2 (Qeq_bool_iff f0 0) H).
  - intros H Hinf. unfold rd4_fit_decay, samples_per_period.
    rewrite (Qeq_bool_false _ _ H).
    pose proof (b64_not_nan (fs / f0)) as Hnan.
    rewrite <- (d_div_fin fs f0 H) in Hnan.
    destruct (d_div (Fin fs) (Fin f0)); try reflexivity; [discriminate|contradiction].
  - intros H Hfin ->. unfold rd4_fit_decay, samples_per_period.
    rewrite (Qeq_bool_false _ _ H).
    destruct (d_div (Fin fs) (Fin f0)) as [q| | |]; try discriminate.
    unfold fit_start. cbn [List.length Z.of_nat].
    destruct (Z.leb_spec 0 (guard_periods * py_int q)) as [Hle|Hlt].
    + reflexivity.
    + rewrite (proj2 (Z.ltb_lt _ _) Hlt). unfold py_getitem.
      cbn [List.length Z.of_nat]. rewrite (proj2 (Z.ltb_lt _ _) Hlt).
      rewrite Z.add_0_r.
      assert (E : (0 <=? guard_periods * py_int q)%Z = false)
        by (apply Z.leb_gt; exact Hlt).
      rewrite E. reflexivity.
Qed.



End Numpy.

Lemma rd4_degenerate_inputs_witness :
  rd4_fit_decay Ref.np_log Ref.np_exp Ref.np_sqrt Ref.np_polyfit1
    [1; 1 # 2] 125000000 0 3 (1 # 10) = ([], Raise ZeroDivisionError) /\
  rd4_fit_decay Ref.np_log Ref.np_exp Ref.np_sqrt Ref.np_polyfit1
    [1; 1 # 2] (10 ^ 308) (1 / 10 ^ 308) 3 (1 # 10) = ([], Raise OverflowError) /\
  snd (rd4_fit_decay Ref.np_log Ref.np_exp Ref.np_sqrt Ref.np_polyfit1
         [] 125000000 4995000 3 (1 # 10)) = Raise IndexError.
Proof.
  split; [|split].
  - apply (rd4_degenerate_inputs Ref.np_log Ref.np_exp Ref.np_sqrt Ref.np_polyfit1
             [1; 1 # 2] 125000000 0 3 (1 # 10)).
    reflexivity.
  - apply (rd4_degenerate_inputs Ref.np_log Ref.np_exp Ref.np_sqrt Ref.np_polyfit1
             [1; 1 # 2] (10 ^ 308) (1 / 10 ^ 308) 3 (1 # 10)).
    + intros H. vm_compute in H. discriminate H.
    + vm_compute. reflexivity.
  - apply (rd4_degenerate_inputs Ref.np_log Ref.np_exp Ref.np_sqrt Ref.np_polyfit1
             [] 125000000 4995000 3 (1 # 10)).
    + intros H. discriminate H.
    + vm_compute. reflexivity.
    + reflexivity.
Defined.



Lemma rd4_empty_window_raises_witness :
  snd (rd4_fit_decay Ref.np_log Ref.np_exp Ref.np_sqrt Ref.np_polyfit1
         [-1; 2; 3] 1 1 0 (1 # 10)) = Raise IndexError.
Proof.
  apply (RD4_Facts.rd4_empty_window_raises
           Ref.np_log Ref.np_exp Ref.np_sqrt Ref.np_polyfit1 [-1; 2; 3] 1 1 0 (1 # 10) 1).
  - reflexivity.
  - reflexivity.
  - lia.
  - reflexivity.
  - reflexivity.
  - discriminate.
  - vm_compute. reflexivity.
  - vm_compute. discriminate.
Defined.

End RD4_More.

(* ------------------------------------------------------------------ *)
(** ** RD_summary_tools.py: reading the results back *)

Module Summary_Facts.
Import Summary.

Lemma dict_get_zip_absent (k : string) (hs r : list string) :
  ~ In k hs -> dict_get k (zip_row hs r) = None.
Proof.
  revert r. induction hs as [|h hs IH]; intros r Hk; [reflexivity|].
  assert (Hh : String.eqb k h = false).
  { apply String.eqb_neq. intros ->. apply Hk. now left. }
  assert (Hk' : ~ In k hs) by (intros H; apply Hk; now right).
  destruct r as [|v vs]; cbn [zip_row dict_get]; rewrite (IH _ Hk'), Hh; reflexivity.
Qed.

(** A line that ends before the column [k] leaves the field [None]. *)
Lemma dict_get_short_row (k : string) (pre post r : list string) :
  ~ In k post -> (List.length r <= List.length pre)%nat ->
  dict_get k (zip_row (pre ++ k :: post) r) = Some None.
Proof.
  intros Hk. revert r. induction pre as [|h pre IH]; intros r Hr.
  - destruct r as [|v vs]; [|simpl in Hr; lia].
    cbn [app zip_row dict_get].
    now rewrite (dict_get_zip_absent k post [] Hk), String.eqb_refl.
  - destruct r as [|v vs]; cbn [app zip_row dict_get].
    + rewrite (IH []); [reflexivity|simpl; lia].
    + rewrite (IH vs); [reflexivity|simpl in Hr; lia].
Qed.

Lemma sequence_raises {A} (l : list (result A)) (e : exn) :
  (forall x, In x l -> (exists v, x = Ok v) \/ x = Raise e) ->
  In (Raise e) l -> sequence l = Raise e.
Proof.
  induction l as [|x l IH]; intros Hall Hin; [destruct Hin|].
  destruct (Hall x (or_introl eq_refl)) as [[v ->]| ->]; [|reflexivity].
  destruct Hin as [Hin|Hin]; [discriminate|].
  cbn [sequence]. rewrite IH; [reflexivity| |exact Hin].
  intros y Hy. apply Hall. now right.
Qed.

Lemma sequence_cases {A} (l : list (result A)) (e : exn) :
  (forall x, In x l -> (exists v, x = Ok v) \/ x = Raise e) ->
  (exists vs, sequence l = Ok vs) \/ sequence l = Raise e.
Proof.
  induction l as [|x l IH]; intros Hall; [left; now eexists|].
  destruct (Hall x (or_introl eq_refl)) as [[v ->]| ->]; [|now right].
  cbn [sequence].
  destruct IH as [[vs ->]| ->]; [intros y Hy; apply Hall; now right| |].
  - left. now eexists.
  - now right.
Qed.

(** The extrema Python's [min] and [max] find in a list of numbers. *)
Lemma fold_py_min_fin (r : list Q) (v : Q) :
  exists m, fold_left py_min (map Fin r) (Fin v) = Fin m /\
            In m (v :: r) /\ forall q, In q (v :: r) -> m <= q.
Proof.
  revert v. induction r as [|x r IH]; intros v.
  - exists v. split; [reflexivity|]. split; [now left|].
    intros q [<-|[]]. apply Qle_refl.
  - cbn [map fold_left]. unfold py_min at 2. cbn [fl_ltb].
    destruct (Qltb x v) eqn:E.
    + apply Qltb_lt in E. destruct (IH x) as (m & Hm & Hin & Hle).
      exists m. split; [exact Hm|]. split.
      * right. exact Hin.
      * intros q [<-|Hq]; [|now apply Hle].
        apply Qle_trans with x; [apply Hle; now left|lra].
    + apply Qltb_ge in E. destruct (IH v) as (m & Hm & Hin & Hle).
      exists m. split; [exact Hm|]. split.
      * destruct Hin as [<-|Hin]; [now left|right; now right].
      * intros q [<-|[<-|Hq]].
        -- apply Hle. now left.
        -- apply Qle_trans with v; [apply Hle; now left|exact E].
        -- apply Hle. now right.
Qed.

Lemma fold_py_max_fin (r : list Q) (v : Q) :
  exists m, fold_left py_max (map Fin r) (Fin v) = Fin m /\
            In m (v :: r) /\ forall q, In q (v :: r) -> q <= m.
Proof.
  revert v. induction r as [|x r IH]; intros v.
  - exists v. split; [reflexivity|]. split; [now left|].
    intros q [<-|[]]. apply Qle_refl.
  - cbn [map fold_left]. unfold py_max at 2. unfold fl_gtb. cbn [fl_ltb].
    destruct (Qltb v x) eqn:E.
    + apply Qltb_lt in E. destruct (IH x) as (m & Hm & Hin & Hle).
      exists m. split; [exact Hm|]. split.
      * right. exact Hin.
      * intros q [<-|Hq]; [|now apply Hle].
        apply Qle_trans with x; [lra|apply Hle; now left].
    + apply Qltb_ge in E. destruct (IH v) as (m & Hm & Hin & Hle).
      exists m. split; [exact Hm|]. split.
      * destruct Hin as [<-|Hin]; [now left|right; now right].
      * intros q [<-|[<-|Hq]].
        -- apply Hle. now left.
        -- apply Qle_trans with v; [exact E|apply Hle; now left].
        -- apply Hle. now right.
Qed.

Lemma fl_sum_fin (qs : list Q) : fl_sum (map Fin qs) = Fin (Qsum qs).
Proof.
  induction qs as [|q qs IH]; [reflexivity|].
  cbn [map]. unfold fl_sum, Qsum in *. cbn [fold_right]. now rewrite IH.
Qed.

Lemma Qsum_between (qs : list Q) (lo hi : Q) :
  (forall q, In q qs -> lo <= q /\ q <= hi) ->
  lo * Qlen qs <= Qsum qs /\ Qsum qs <= hi * Qlen qs.
Proof.
  induction qs as [|q qs IH]; intros H.
  - unfold Qlen, Qsum. simpl. split; rewrite Qmult_0_r; apply Qle_refl.
  - assert (E : Qlen (q :: qs) == 1 + Qlen qs).
    { unfold Qlen. cbn [List.length]. rewrite Nat2Z.inj_succ, <- Z.add_1_l.
      rewrite inject_Z_plus. reflexivity. }
    destruct (H q (or_introl eq_refl)) as [H1 H2].
    destruct IH as [I1 I2]; [intros y Hy; apply H; now right|].
    unfold Qsum in *. cbn [fold_right]. rewrite E. split; lra.
Qed.

(** X25: [_col] ignores NaN; on the numbers that remain it reports their count,
    the smallest and the largest of them, and their arithmetic mean, which
    lies between the two. *)
Theorem col_reports_extrema_and_mean (values : list pyfloat) (qs : list Q) :
  filter (fun v => negb (is_nan v)) values = map Fin qs -> qs <> [] ->
  exists lo mean hi,
    _col values = Stats (List.length qs) (Fin lo) (Fin mean) (Fin hi) /\
    In lo qs /\ In hi qs /\
    (forall q, In q qs -> lo <= q /\ q <= hi) /\
    mean == Qmean qs /\ lo <= mean /\ mean <= hi.
Proof.
  intros Hf Hne. unfold _col. rewrite Hf.
  destruct qs as [|v r]; [contradiction|]. cbn [map].
  destruct (fold_py_min_fin r v) as (lo & Hlo & Hlin & Hlle).
  destruct (fold_py_max_fin r v) as (hi & Hhi & Hhin & Hhle).
  rewrite Hlo, Hhi.
  change (Fin v :: map Fin r) with (map Fin (v :: r)).
  unfold fl_mean. rewrite fl_sum_fin, length_map. unfold fl_of_nat.
  assert (Hpos : 0 < Qlen (v :: r)).
  { unfold Qlen. change 0 with (inject_Z 0). rewrite <- Zlt_Qlt. simpl. lia. }
  fold (Qlen (v :: r)).
  rewrite fl_div_fin by lra.
  exists lo, (Qsum (v :: r) / Qlen (v :: r)), hi.
  split; [reflexivity|]. split; [exact Hlin|]. split; [exact Hhin|].
  split; [intros q Hq; split; [now apply Hlle|now apply Hhle]|].
  split; [reflexivity|].
  destruct (Qsum_between (v :: r) lo hi) as [B1 B2].
  { intros q Hq; split; [now apply Hlle|now apply Hhle]. }
  split.
  - apply Qle_shift_div_l; assumption.
  - apply Qle_shift_div_r; assumption.
Qed.

Lemma col_reports_extrema_and_mean_witness :
  exists lo mean hi,
    _col [Fin 3; NaN; Fin 1; Fin 2; NaN] = Stats 3 (Fin lo) (Fin mean) (Fin hi) /\
    In lo [3; 1; 2] /\ In hi [3; 1; 2] /\
    (forall q, In q [3; 1; 2] -> lo <= q /\ q <= hi) /\
    mean == Qmean [3; 1; 2] /\ lo <= mean /\ mean <= hi.
Proof.
  apply (col_reports_extrema_and_mean [Fin 3; NaN; Fin 1; Fin 2; NaN] [3; 1; 2]).
  - reflexivity.
  - discriminate.
Defined.

Section Parsing.

Variable py_float : string -> option pyfloat.

Lemma get_float_cases (row : dict) (keys : list string) :
  (exists v, _get_float py_float row keys = Ok v) \/
  _get_float py_float row keys = Raise TypeError.
Proof.
  induction keys as [|k ks IH]; [left; now eexists|].
  cbn [_get_float].
  destruct (dict_get k row) as [[s|]|]; [|now right|exact IH].
  destruct (String.eqb s ""); [exact IH|].
  destruct (py_float s); left; now eexists.
Qed.

(** X24: fields that the row lacks or whose text is empty are skipped; the first
    other field decides alone: its number, or NaN when its text does not
    parse.  The keys after it are never consulted, and NaN is the answer
    when every key is skipped. *)
Theorem get_float_first_usable_field (row : dict) (keys1 : list string) :
  (forall k, In k keys1 ->
     dict_get k row = None \/ dict_get k row = Some (Some ""%string)) ->
  _get_float py_float row keys1 = Ok NaN /\
  forall k s keys2,
    dict_get k row = Some (Some s) -> s <> ""%string ->
    _get_float py_float row (keys1 ++ k :: keys2) =
      Ok (match py_float s with Some v => v | None => NaN end).
Proof.
  induction keys1 as [|k1 ks IH]; intros Hskip.
  - split; [reflexivity|]. intros k s keys2 Hk Hs.
    cbn [app _get_float]. rewrite Hk.
    assert (E : String.eqb s "" = false) by (now apply String.eqb_neq).
    rewrite E. destruct (py_float s); reflexivity.
  - destruct IH as [I1 I2]; [intros k Hk; apply Hskip; now right|].
    split.
    + cbn [_get_float].
      destruct (Hskip k1 (or_introl eq_refl)) as [-> | ->]; [exact I1|].
      cbn [String.eqb]. exact I1.
    + intros k s keys2 Hk Hs. cbn [app _get_float].
      destruct (Hskip k1 (or_introl eq_refl)) as [-> | ->]; [now apply I2|].
      cbn [String.eqb]. now apply I2.
Qed.

(** X26: a data line that ends before one of the columns [f0_hz], [tau_s], [Q]
    or [fit_rmse] carries [None] there; [float(None)] raises TypeError,
    which nothing catches: no statistics are printed. *)
Theorem rd_stats_short_line_raises (pre post : list string) (k : string)
    (data : list (list string)) (r : list string) (tail : Z) :
  In k ["f0_hz"; "tau_s"; "Q"; "fit_rmse"]%string ->
  ~ In k post -> In r data -> r <> [] ->
  (List.length r <= List.length pre)%nat ->
  rd_stats py_float (Some ((pre ++ k :: post) :: data)) tail = Raise TypeError.
Proof.
  intros Hk Hpost Hr Hne Hlen.
  unfold rd_stats, dict_reader.
  set (rows := map (zip_row (pre ++ k :: post))
                   (filter (fun r0 => negb (is_empty_row r0)) data)).
  assert (Hin : In (zip_row (pre ++ k :: post) r) rows).
  { unfold rows. apply in_map. apply filter_In. split; [exact Hr|].
    destruct r; [contradiction|reflexivity]. }
  assert (Hget : dict_get k (zip_row (pre ++ k :: post) r) = Some None)
    by (now apply dict_get_short_row).
  assert (Hall : forall keys x,
            In x (map (fun r0 => _get_float py_float r0 keys) rows) ->
            (exists v, x = Ok v) \/ x = Raise TypeError).
  { intros keys x Hx. apply in_map_iff in Hx. destruct Hx as (r0 & <- & _).
    apply get_float_cases. }
  assert (Hbad : forall ks,
            In (Raise TypeError)
               (map (fun r0 => _get_float py_float r0 (k :: ks)) rows)).
  { intros ks. apply in_map_iff. exists (zip_row (pre ++ k :: post) r).
    split; [|exact Hin]. cbn [_get_float]. now rewrite Hget. }
  clearbody rows.
  assert (Hrows : forall (A B : result report),
            match rows with [] => A | _ :: _ => B end = B).
  { intros A B. destruct rows; [destruct Hin|reflexivity]. }
  rewrite Hrows.
  pose proof (sequence_cases _ TypeError (Hall ["f0_hz"%string])) as C1.
  pose proof (sequence_cases _ TypeError (Hall ["tau_s"%string])) as C2.
  pose proof (sequence_cases _ TypeError (Hall ["Q"%string])) as C3.
  cbn [In] in Hk.
  destruct Hk as [<-|[<-|[<-|[<-|[]]]]].
  - now rewrite (sequence_raises _ TypeError (Hall _) (Hbad [])).
  - rewrite (sequence_raises _ TypeError (Hall ["tau_s"%string]) (Hbad [])).
    destruct C1 as [[v1 ->]| ->]; reflexivity.
  - rewrite (sequence_raises _ TypeError (Hall ["Q"%string]) (Hbad [])).
    destruct C1 as [[v1 ->]| ->]; [|reflexivity].
    destruct C2 as [[v2 ->]| ->]; reflexivity.
  - rewrite (sequence_raises _ TypeError (Hall _) (Hbad ["fft_rmse"%string])).
    destruct C1 as [[v1 ->]| ->]; [|reflexivity].
    destruct C2 as [[v2 ->]| ->]; [|reflexivity].
    destruct C3 as [[v3 ->]| ->]; reflexivity.
Qed.

(** X27: the count announced in "Last n run(s)" and the runs printed: for a
    positive [tail] both are [min(tail, rows)]; for [tail = 0] the line
    announces 0 runs and every run is printed; for a negative [tail] the
    line announces [tail] and all runs but the first [-tail] are printed. *)
Theorem rd_stats_tail_count (lines : list (list string)) (tail : Z)
    (c1 c2 c3 c4 : col) (announced : Z)
    (runs : list (list (string * option string))) :
  rd_stats py_float (Some lines) tail = Ok (Report c1 c2 c3 c4 announced runs) ->
  let n := List.length (dict_reader lines) in
  (0 < n)%nat /\
  ((0 < tail)%Z ->
   announced = Z.min tail (Z.of_nat n) /\ List.length runs = Z.to_nat announced) /\
  (tail = 0%Z -> announced = 0%Z /\ List.length runs = n) /\
  ((tail < 0)%Z ->
   announced = tail /\ List.length runs = (n - Z.to_nat (- tail))%nat).
Proof.
  intros H n. unfold rd_stats in H. subst n.
  destruct (dict_reader lines) as [|r0 rows]; [discriminate|].
  cbv iota in H.
  set (rs := r0 :: rows) in *.
  set (m := List.length rs) in *.
  assert (Hm : (0 < m)%nat) by (unfold m, rs; simpl; lia).
  clearbody rs.
  destruct (sequence _) as [f0s|]; [|discriminate].
  destruct (sequence _) as [taus|]; [|discriminate].
  destruct (sequence _) as [Qs|]; [|discriminate].
  destruct (sequence _) as [rmses|]; [|discriminate].
  assert (Ha : Z.min tail (Z.of_nat m) = announced) by congruence.
  assert (Hr : map (printed_items fields) (py_slice_from rs (- tail)) = runs)
    by congruence.
  clear H.
  assert (Hlen : List.length runs =
                 (m - slice_bound (Z.of_nat m) (- tail))%nat).
  { rewrite <- Hr, length_map. unfold py_slice_from.
    rewrite length_skipn. reflexivity. }
  split; [exact Hm|]. unfold slice_bound in Hlen.
  split; [|split].
  - intros Ht. split; [now rewrite Ha|]. rewrite Hlen, <- Ha.
    destruct (Z.ltb_spec (- tail) 0); lia.
  - intros ->. split; [rewrite <- Ha; lia|]. rewrite Hlen.
    cbn [Z.opp Z.ltb Z.compare]. lia.
  - intros Ht. split; [rewrite <- Ha; lia|]. rewrite Hlen.
    destruct (Z.ltb_spec (- tail) 0); lia.
Qed.

End Parsing.

Lemma get_float_first_usable_field_witness :
  let row := [("fit_rmse", Some ""); ("fft_rmse", Some "oops"); ("Q", Some "12")]%string in
  _get_float RefText.py_float row ["fft_mse"; "fit_rmse"]%string = Ok NaN /\
  forall k s keys2,
    dict_get k row = Some (Some s) -> s <> ""%string ->
    _get_float RefText.py_float row (["fft_mse"; "fit_rmse"]%string ++ k :: keys2) =
      Ok (match RefText.py_float s with Some v => v | None => NaN end).
Proof.
  intros row.
  apply (get_float_first_usable_field RefText.py_float row
           ["fft_mse"; "fit_rmse"]%string).
  intros k [<-|[<-|[]]]; [left|right]; reflexivity.
Defined.

Lemma rd_stats_short_line_raises_witness :
  rd_stats RefText.py_float
    (Some (["timestamp"; "f0_hz"; "tau_s"; "Q"; "fit_rmse"]%string
           :: [["t0"; "5000000.0"; "0.0001"; "1570.0"; "0.01"];
               ["t1"; "5000000.0"]]%string)) 5
  = Raise TypeError.
Proof.
  apply (rd_stats_short_line_raises RefText.py_float
           ["timestamp"; "f0_hz"]%string ["Q"; "fit_rmse"]%string "tau_s"%string
           [["t0"; "5000000.0"; "0.0001"; "1570.0"; "0.01"];
            ["t1"; "5000000.0"]]%string ["t1"; "5000000.0"]%string 5).
  - right. left. reflexivity.
  - intros [H|[H|[]]]; discriminate H.
  - right. left. reflexivity.
  - discriminate.
  - simpl. lia.
Defined.

End Summary_Facts.

(* ------------------------------------------------------------------ *)
(** ** From RD6 to rd_stats: what is saved is what is reported *)

Module Results_Facts.
Import Summary.

Lemma dict_get_app_absent (k : string) (d1 d2 : dict) :
  dict_get k d2 = None -> dict_get k (d1 ++ d2) = dict_get k d1.
Proof.
  intros H. induction d1 as [|[k' v] d1 IH]; [exact H|].
  cbn [app dict_get]. now rewrite IH.
Qed.

Lemma zip_row_app (h1 h2 r1 r2 : list string) :
  List.length h1 = List.length r1 ->
  zip_row (h1 ++ h2) (r1 ++ r2) = (zip_row h1 r1 ++ zip_row h2 r2)%list.
Proof.
  revert r1. induction h1 as [|h h1 IH]; intros [|v r1] H; try discriminate.
  - reflexivity.
  - cbn [app zip_row]. rewrite IH; [reflexivity|]. now injection H.
Qed.

Lemma map_render_CStr (py_str : pyfloat -> string) (l : list string) :
  map (render py_str) (map RD6.CStr l) = l.
Proof.
  induction l as [|h t IH]; [reflexivity|]. cbn [map render]. now rewrite IH.
Qed.

Section RoundTrip.

Variable py_float : string -> option pyfloat.
Variable py_str : pyfloat -> string.

(** X28: one accepted save into a new file, then [rd_stats] on that file: each
    of the four columns is summarised from exactly the number that was
    saved, provided [float] reads back what [str] wrote and no extra shares
    its name with a base column. *)
Theorem rd6_then_rd_stats (timestamp : string) (f0 tau Qf rmse : pyfloat)
    (alpha df_tau df_Q : option pyfloat) (extras : list (string * RD6.cell))
    (tail : Z) :
  fl_neb f0 f0 = false -> fl_leb tau (Fin 0) = false -> fl_leb Qf (Fin 0) = false ->
  (forall k, In k (map fst extras) -> ~ In k RD6.base_header) ->
  py_float ""%string = None ->
  (forall x, In x [f0; tau; Qf; rmse] -> py_float (py_str x) = Some x) ->
  exists runs,
    rd_stats py_float
      (render_file py_str
         (snd (RD6.rd6_save_results timestamp (Some f0) tau Qf rmse
                 alpha df_tau df_Q None extras))) tail
    = Ok (Report (_col [f0]) (_col [tau]) (_col [Qf]) (_col [rmse])
            (Z.min tail 1) runs).
Proof.
  intros Hf0 Htau HQ Hext Hempty Hback.
  unfold RD6.rd6_save_results. rewrite Hf0, Htau, HQ.
  cbn [snd RD6.append_row render_file map].
  unfold RD6.header. rewrite map_render_CStr.
  unfold rd_stats, dict_reader.
  set (sk := RD6.sorted_keys extras).
  assert (Hsk : forall k, In k RD6.base_header -> ~ In k sk).
  { intros k Hk Hin. apply (Hext k); [|exact Hk].
    apply (Permutation_in k (RD6_More.sorted_keys_perm extras)). exact Hin. }
  unfold RD6.record. fold sk. rewrite map_app.
  set (evs := map (render py_str) (map (fun k => RD6.lookup k extras) sk)).
  cbn [map render filter is_empty_row app negb].
  set (vals := [timestamp; py_str f0; py_str tau; py_str Qf; py_str rmse;
                render py_str (RD6.opt_cell alpha);
                render py_str (RD6.opt_cell df_tau);
                render py_str (RD6.opt_cell df_Q)]).
  change (timestamp :: py_str f0 :: py_str tau :: py_str Qf :: py_str rmse
          :: render py_str (RD6.opt_cell alpha)
          :: render py_str (RD6.opt_cell df_tau)
          :: render py_str (RD6.opt_cell df_Q) :: evs)
    with (vals ++ evs)%list.
  rewrite (zip_row_app RD6.base_header sk vals evs eq_refl).
  set (row := (zip_row RD6.base_header vals ++ zip_row sk evs)%list).
  assert (Hne : forall x, In x [f0; tau; Qf; rmse] ->
                          String.eqb (py_str x) "" = false).
  { intros x Hx. apply String.eqb_neq. intros E.
    specialize (Hback x Hx). rewrite E, Hempty in Hback. discriminate. }
  assert (Hget : forall k v ks,
            In k RD6.base_header ->
            dict_get k (zip_row RD6.base_header vals) = Some (Some (py_str v)) ->
            In v [f0; tau; Qf; rmse] ->
            _get_float py_float row (k :: ks) = Ok v).
  { intros k v ks Hk Hd Hv. cbn [_get_float]. unfold row.
    rewrite dict_get_app_absent
      by (apply Summary_Facts.dict_get_zip_absent; now apply Hsk).
    rewrite Hd, (Hne v Hv), (Hback v Hv). reflexivity. }
  cbn [map].
  rewrite (Hget "f0_hz"%string f0) by (cbn; tauto || reflexivity).
  rewrite (Hget "tau_s"%string tau) by (cbn; tauto || reflexivity).
  rewrite (Hget "Q"%string Qf) by (cbn; tauto || reflexivity).
  rewrite (Hget "fit_rmse"%string rmse) by (cbn; tauto || reflexivity).
  cbn [sequence List.length Z.of_nat Pos.of_succ_nat].
  eexists. reflexivity.
Qed.

End RoundTrip.

Lemma rd6_then_rd_stats_witness :
  let py_str := fun x =>
    match x with
    | Fin q => if Qeq_bool q 5000000 then "5000000.0"%string
               else if Qeq_bool q (1 # 10000) then "0.0001"%string
               else if Qeq_bool q 1570 then "1570.0"%string
               else "0.01"%string
    | _ => "nan"%string
    end in
  exists runs,
    rd_stats RefText.py_float
      (render_file py_str
         (snd (RD6.rd6_save_results "2024-05-01T12:00:00"%string
                 (Some (Fin 5000000)) (Fin (1 # 10000)) (Fin 1570) (Fin (1 # 100))
                 None None None None [("mode"%string, RD6.CStr "SIM"%string)]))) 5
    = Ok (Report (_col [Fin 5000000]) (_col [Fin (1 # 10000)]) (_col [Fin 1570])
            (_col [Fin (1 # 100)]) (Z.min 5 1) runs).
Proof.
  intros py_str.
  apply (rd6_then_rd_stats RefText.py_float py_str "2024-05-01T12:00:00"%string
           (Fin 5000000) (Fin (1 # 10000)) (Fin 1570) (Fin (1 # 100))
           None None None [("mode"%string, RD6.CStr "SIM"%string)] 5).
  - reflexivity.
  - reflexivity.
  - reflexivity.
  - intros k [<-|[]] H. cbn in H.
    repeat (destruct H as [H|H]; [discriminate H|]). exact H.
  - reflexivity.
  - intros x [<-|[<-|[<-|[<-|[]]]]]; reflexivity.
Defined.

Lemma rd_stats_tail_count_witness :
  let lines := [["timestamp"; "f0_hz"; "tau_s"; "Q"; "fit_rmse"];
                ["t0"; "5000000.0"; "0.0001"; "1570.0"; "0.01"];
                ["t1"; "5000010.0"; "0.0002"; "3141.0"; "0.02"]]%string in
  exists c1 c2 c3 c4 announced runs,
    rd_stats RefText.py_float (Some lines) 0
      = Ok (Report c1 c2 c3 c4 announced runs) /\
    (0 < List.length (dict_reader lines))%nat /\
    ((0 < 0)%Z ->
     announced = Z.min 0 (Z.of_nat (List.length (dict_reader lines))) /\
     List.length runs = Z.to_nat announced) /\
    (0%Z = 0%Z -> announced = 0%Z /\ List.length runs = List.length (dict_reader lines)) /\
    ((0 < 0)%Z ->
     announced = 0%Z /\
     List.length runs = (List.length (dict_reader lines) - Z.to_nat (- 0))%nat).
Proof.
  intros lines.
  do 6 eexists. split.
  - vm_compute. reflexivity.
  - eapply (Summary_Facts.rd_stats_tail_count RefText.py_float lines 0).
    vm_compute. reflexivity.
Defined.

End Results_Facts.

(* ------------------------------------------------------------------ *)
(** ** RD1 and the driver: how the stages feed each other *)

Module Pipeline_Facts.
Import RD1.

Lemma slice_bound_nonneg (n : nat) (i : Z) :
  (0 <= i)%Z -> slice_bound (Z.of_nat n) i = Nat.min (Z.to_nat i) n.
Proof.
  intros H. unfold slice_bound.
  assert (E : (i <? 0)%Z = false) by (apply Z.ltb_ge; exact H).
  rewrite E. lia.
Qed.

Lemma slice_capture_eq (raw : list Q) (start_bytes nbytes : Z) :
  (0 <= start_bytes)%Z -> (0 <= nbytes)%Z ->
  slice_capture raw start_bytes nbytes =
  firstn (Z.to_nat (nbytes / 2)) (skipn (Z.to_nat (start_bytes / 2)) raw).
Proof.
  intros Hs Hn. unfold slice_capture, py_slice.
  assert (H1 : (0 <= start_bytes / 2)%Z) by (apply Z.div_pos; lia).
  assert (H2 : (0 <= nbytes / 2)%Z) by (apply Z.div_pos; lia).
  rewrite !slice_bound_nonneg by lia.
  set (s := Z.to_nat (start_bytes / 2)). set (n := Z.to_nat (nbytes / 2)).
  replace (Z.to_nat (start_bytes / 2 + nbytes / 2)) with (s + n)%nat
    by (unfold s, n; lia).
  destruct (Nat.le_gt_cases s (List.length raw)) as [Hle|Hgt].
  - rewrite (Nat.min_l s) by exact Hle.
    destruct (Nat.le_gt_cases (s + n) (List.length raw)) as [Hle2|Hgt2].
    + rewrite Nat.min_l by exact Hle2. f_equal. lia.
    + rewrite Nat.min_r by lia.
      rewrite !firstn_all2 by (rewrite length_skipn; lia). reflexivity.
  - rewrite !Nat.min_r by lia.
    rewrite (skipn_all2 raw (n:=s)) by lia.
    rewrite skipn_all. now rewrite !firstn_nil.
Qed.

(** X29: the slice never raises and never reads past the file: with the sample
    offset [s = start_bytes // 2] and the sample count [n = nbytes // 2] it
    holds the samples [raw[s], raw[s+1], ...], [n] of them or as many as the
    file has from [s] on (none when [s] is at or past the end). *)
Theorem slice_capture_truncates (raw : list Q) (start_bytes nbytes : Z) :
  (0 <= start_bytes)%Z -> (0 <= nbytes)%Z ->
  let s := Z.to_nat (start_bytes / 2) in
  let n := Z.to_nat (nbytes / 2) in
  let out := slice_capture raw start_bytes nbytes in
  List.length out = Nat.min n (List.length raw - s) /\
  forall i, (i < List.length out)%nat -> nth i out 0 = nth (s + i) raw 0.
Proof.
  intros Hs Hn s n out. unfold out.
  rewrite (slice_capture_eq raw start_bytes nbytes Hs Hn). fold s n.
  assert (Hlen : List.length (firstn n (skipn s raw)) = Nat.min n (List.length raw - s)).
  { now rewrite length_firstn, length_skipn. }
  split; [exact Hlen|].
  intros i Hi. rewrite Hlen in Hi.
  rewrite nth_firstn.
  assert (E : (i <? n)%nat = true) by (apply Nat.ltb_lt; lia).
  rewrite E. apply nth_skipn.
Qed.

Lemma slice_capture_truncates_witness :
  let out := slice_capture [10; 11; 12; 13; 14] 5 8 in
  List.length out = Nat.min (Z.to_nat (8 / 2)) (List.length [10; 11; 12; 13; 14] - Z.to_nat (5 / 2)) /\
  forall i, (i < List.length out)%nat ->
            nth i out 0 = nth (Z.to_nat (5 / 2) + i) [10; 11; 12; 13; 14] 0.
Proof.
  apply (slice_capture_truncates [10; 11; 12; 13; 14] 5 8); lia.
Defined.

(** X30: RD1 into RD2: when the metadata place the capture at or past the end of
    the raw file, or give it fewer than two bytes, the slice is empty and
    RD2 raises ValueError before printing any warning. *)
Theorem capture_outside_file_fails_in_rd2 (raw : list Q) (start_bytes nbytes : Z)
    (fs zoom_ms : Q) (do_norm : bool) :
  (0 <= start_bytes)%Z -> (0 <= nbytes)%Z ->
  (Z.of_nat (List.length raw) <= start_bytes / 2)%Z \/ (nbytes < 2)%Z ->
  RD2.rd2_clean_quick_look (slice_capture raw start_bytes nbytes) fs zoom_ms do_norm
  = ([], Raise ValueError).
Proof.
  intros Hs Hn H.
  assert (E : slice_capture raw start_bytes nbytes = []).
  { rewrite (slice_capture_eq raw start_bytes nbytes Hs Hn).
    destruct H as [H|H].
    - rewrite skipn_all2 by lia. apply firstn_nil.
    - assert (E0 : (nbytes / 2 = 0)%Z) by (apply Z.div_small; lia).
      rewrite E0. reflexivity. }
  rewrite E. reflexivity.
Qed.

Lemma capture_outside_file_fails_in_rd2_witness :
  RD2.rd2_clean_quick_look (slice_capture [10; 11; 12] 6 4) 125000000 (1 # 5) true
  = ([], Raise ValueError).
Proof.
  apply (capture_outside_file_fails_in_rd2 [10; 11; 12] 6 4 125000000 (1 # 5) true).
  - lia.
  - lia.
  - left. vm_compute. discriminate.
Defined.

(** RD5 into the driver's [Q_final] and RD6: when RD5 gives up (too few
    crossings or too few intervals), the recombined Q is NaN and RD6 prints
    its f0 warning and leaves the results file as it was. *)
Theorem rd5_failure_is_not_saved (x1_relax : list Q) (fs : Q) (min_crossings : Z)
    (timestamp : string) (tau_s rmse : pyfloat) (alpha df_tau df_Q : option pyfloat)
    (file : RD6.csv_file) (extras : list (string * RD6.cell)) :
  let idx := RD5.sign_changes 0 x1_relax in
  (Z.of_nat (List.length idx) < min_crossings)%Z \/
  (List.length (np_diff (map (RD5.crossing_time x1_relax fs) idx)) < 2)%nat ->
  let f0_relax_hz := fst (snd (RD5.rd5_freq_from_relax x1_relax fs min_crossings)) in
  RD7.Q_final f0_relax_hz tau_s = NaN /\
  RD6.rd6_save_results timestamp (Some f0_relax_hz) tau_s
    (RD7.Q_final f0_relax_hz tau_s) rmse alpha df_tau df_Q file extras
  = ([RD6.F0NaN], file).
Proof.
  intros idx H f0.
  assert (E : f0 = NaN).
  { unfold f0, RD5.rd5_freq_from_relax. fold idx.
    destruct (Z.of_nat (List.length idx) <? min_crossings)%Z eqn:E1; [reflexivity|].
    destruct (List.length (np_diff (map (RD5.crossing_time x1_relax fs) idx)) <? 2)%nat
      eqn:E2; [reflexivity|].
    apply Z.ltb_ge in E1. apply Nat.ltb_ge in E2. destruct H; lia. }
  rewrite E. split; reflexivity.
Qed.

Lemma rd5_failure_is_not_saved_witness :
  RD7.Q_final
    (fst (snd (RD5.rd5_freq_from_relax [1; -1; 1; 1] 125000000 6))) (Fin (1 # 10000))
  = NaN /\
  RD6.rd6_save_results "2024-05-01T12:00:00"%string
    (Some (fst (snd (RD5.rd5_freq_from_relax [1; -1; 1; 1] 125000000 6))))
    (Fin (1 # 10000))
    (RD7.Q_final
       (fst (snd (RD5.rd5_freq_from_relax [1; -1; 1; 1] 125000000 6)))
       (Fin (1 # 10000)))
    (Fin (1 # 100)) None None None (Some []) []
  = ([RD6.F0NaN], Some []).
Proof.
  apply (rd5_failure_is_not_saved [1; -1; 1; 1] 125000000 6
           "2024-05-01T12:00:00"%string (Fin (1 # 10000)) (Fin (1 # 100))
           None None None (Some []) []).
  left. vm_compute. reflexivity.
Defined.

End Pipeline_Facts.
